(** * Online3DViewer: the identification tool

    A shallow embedding of [source/website/identificationtool.js] and of the
    second revision of the same file, together with the parts of the host
    libraries they call.

    JavaScript numbers are idealised as real numbers: every statement about
    distances and angles below is a statement about the exact quantity the
    code's formula denotes, not about its rounding.  Division by zero, which
    in JavaScript yields an infinity or NaN, is excluded by hypothesis
    wherever a theorem depends on it. *)

From stdpp Require Import base list strings.
From Stdlib Require Import Ascii Reals Lra Psatz.

(** ** The parts of three.js used by the tool

    three.js is a third-party library; the definitions follow its methods of
    the same names ([Vector3], [Matrix4], [Plane], [Object3D]). *)
Module THREE.
Local Open Scope R_scope.

Record Vector3 := mkVector3 { x : R; y : R; z : R }.

Definition clone (v : Vector3) : Vector3 := mkVector3 (x v) (y v) (z v).

Definition dot (a b : Vector3) : R := x a * x b + y a * y b + z a * z b.

Definition lengthSq (a : Vector3) : R := x a * x a + y a * y a + z a * z a.

Definition length (a : Vector3) : R := sqrt (lengthSq a).

Definition sub (a b : Vector3) : Vector3 :=
  mkVector3 (x a - x b) (y a - y b) (z a - z b).

Definition multiplyScalar (a : Vector3) (s : R) : Vector3 :=
  mkVector3 (x a * s) (y a * s) (z a * s).

Definition distanceToSquared (a b : Vector3) : R :=
  let dx := x a - x b in
  let dy := y a - y b in
  let dz := z a - z b in
  dx * dx + dy * dy + dz * dz.

Definition distanceTo (a b : Vector3) : R := sqrt (distanceToSquared a b).

(** [MathUtils.clamp]: [Math.max(min, Math.min(max, value))]. *)
Definition clamp (value lo hi : R) : R := Rmax lo (Rmin hi value).

(** [Vector3.angleTo]: the guard on a zero denominator returns [Math.PI / 2]. *)
Definition angleTo (a b : Vector3) : R :=
  let denominator := sqrt (lengthSq a * lengthSq b) in
  if Req_dec_T denominator 0 then PI / 2
  else
    let theta := dot a b / denominator in
    acos (clamp theta (-1) 1).

(** [Matrix4.elements], column-major as in three.js: [e0..e3] is the first
    column, [e12..e14] the translation. *)
Record Matrix4 := mkMatrix4 {
  e0 : R; e1 : R; e2 : R; e3 : R;
  e4 : R; e5 : R; e6 : R; e7 : R;
  e8 : R; e9 : R; e10 : R; e11 : R;
  e12 : R; e13 : R; e14 : R; e15 : R }.

(** [new THREE.Matrix4()] is the identity. *)
Definition identity : Matrix4 :=
  mkMatrix4 1 0 0 0  0 1 0 0  0 0 1 0  0 0 0 1.

Definition setFromMatrixColumn (m : Matrix4) (index : nat) : Vector3 :=
  match index with
  | O => mkVector3 (e0 m) (e1 m) (e2 m)
  | S O => mkVector3 (e4 m) (e5 m) (e6 m)
  | S (S O) => mkVector3 (e8 m) (e9 m) (e10 m)
  | _ => mkVector3 (e12 m) (e13 m) (e14 m)
  end.

(** [Matrix4.extractRotation]: the three axis columns, each divided by its
    length; last row and last column those of the identity.  Nothing is made
    perpendicular: the columns of a sheared matrix stay oblique.  For a
    column of length zero three.js divides by zero and the column becomes
    NaN, which the real numbers here do not have; the properties of the
    measured values that depend on it assume columns of non-zero length. *)
Definition extractRotation (m : Matrix4) : Matrix4 :=
  let scaleX := 1 / length (setFromMatrixColumn m 0) in
  let scaleY := 1 / length (setFromMatrixColumn m 1) in
  let scaleZ := 1 / length (setFromMatrixColumn m 2) in
  mkMatrix4
    (e0 m * scaleX) (e1 m * scaleX) (e2 m * scaleX) 0
    (e4 m * scaleY) (e5 m * scaleY) (e6 m * scaleY) 0
    (e8 m * scaleZ) (e9 m * scaleZ) (e10 m * scaleZ) 0
    0 0 0 1.

(** [Vector3.applyMatrix4], with its perspective divide. *)
Definition applyMatrix4 (v : Vector3) (m : Matrix4) : Vector3 :=
  let w := 1 / (e3 m * x v + e7 m * y v + e11 m * z v + e15 m) in
  mkVector3
    ((e0 m * x v + e4 m * y v + e8 m * z v + e12 m) * w)
    ((e1 m * x v + e5 m * y v + e9 m * z v + e13 m) * w)
    ((e2 m * x v + e6 m * y v + e10 m * z v + e14 m) * w).

(** [Matrix4.multiplyMatrices (a, b)]. *)
Definition multiplyMatrices (a b : Matrix4) : Matrix4 :=
  let a11 := e0 a in let a12 := e4 a in let a13 := e8 a in let a14 := e12 a in
  let a21 := e1 a in let a22 := e5 a in let a23 := e9 a in let a24 := e13 a in
  let a31 := e2 a in let a32 := e6 a in let a33 := e10 a in let a34 := e14 a in
  let a41 := e3 a in let a42 := e7 a in let a43 := e11 a in let a44 := e15 a in
  let b11 := e0 b in let b12 := e4 b in let b13 := e8 b in let b14 := e12 b in
  let b21 := e1 b in let b22 := e5 b in let b23 := e9 b in let b24 := e13 b in
  let b31 := e2 b in let b32 := e6 b in let b33 := e10 b in let b34 := e14 b in
  let b41 := e3 b in let b42 := e7 b in let b43 := e11 b in let b44 := e15 b in
  mkMatrix4
    (a11 * b11 + a12 * b21 + a13 * b31 + a14 * b41)
    (a21 * b11 + a22 * b21 + a23 * b31 + a24 * b41)
    (a31 * b11 + a32 * b21 + a33 * b31 + a34 * b41)
    (a41 * b11 + a42 * b21 + a43 * b31 + a44 * b41)
    (a11 * b12 + a12 * b22 + a13 * b32 + a14 * b42)
    (a21 * b12 + a22 * b22 + a23 * b32 + a24 * b42)
    (a31 * b12 + a32 * b22 + a33 * b32 + a34 * b42)
    (a41 * b12 + a42 * b22 + a43 * b32 + a44 * b42)
    (a11 * b13 + a12 * b23 + a13 * b33 + a14 * b43)
    (a21 * b13 + a22 * b23 + a23 * b33 + a24 * b43)
    (a31 * b13 + a32 * b23 + a33 * b33 + a34 * b43)
    (a41 * b13 + a42 * b23 + a43 * b33 + a44 * b43)
    (a11 * b14 + a12 * b24 + a13 * b34 + a14 * b44)
    (a21 * b14 + a22 * b24 + a23 * b34 + a24 * b44)
    (a31 * b14 + a32 * b24 + a33 * b34 + a34 * b44)
    (a41 * b14 + a42 * b24 + a43 * b34 + a44 * b44).

(** [Matrix4.setPosition]: overwrite the translation column. *)
Definition setPosition (m : Matrix4) (t : Vector3) : Matrix4 :=
  mkMatrix4 (e0 m) (e1 m) (e2 m) (e3 m)
            (e4 m) (e5 m) (e6 m) (e7 m)
            (e8 m) (e9 m) (e10 m) (e11 m)
            (x t) (y t) (z t) (e15 m).

(** [Matrix4.scale]: multiply the three axis columns by the components. *)
Definition scale (m : Matrix4) (v : Vector3) : Matrix4 :=
  mkMatrix4 (e0 m * x v) (e1 m * x v) (e2 m * x v) (e3 m * x v)
            (e4 m * y v) (e5 m * y v) (e6 m * y v) (e7 m * y v)
            (e8 m * z v) (e9 m * z v) (e10 m * z v) (e11 m * z v)
            (e12 m) (e13 m) (e14 m) (e15 m).

(** [Plane]: the points [p] with [dot normal p + constant = 0]. *)
Record Plane := mkPlane { normal : Vector3; constant : R }.

Definition setFromNormalAndCoplanarPoint (n point : Vector3) : Plane :=
  mkPlane n (- dot point n).

Definition distanceToPoint (p : Plane) (point : Vector3) : R :=
  dot (normal p) point + constant p.

(** [Object3D], as far as world matrices go: the local [matrix], the cached
    [matrixWorld] (stale until updated) and the [parent] link. *)
#[warnings="-register-all"]
Inductive Object3D := mkObject3D {
  matrix : Matrix4;
  matrixWorld : Matrix4;
  parent : option Object3D }.

(** [Object3D.updateWorldMatrix (true, false)]: the ancestors first, then
    [matrixWorld] from the parent's fresh [matrixWorld] and the local
    [matrix]; children are left alone.  [matrix] stands for the local matrix
    once [updateMatrix] has composed it. *)
Fixpoint updateWorldMatrix (o : Object3D) : Object3D :=
  match parent o with
  | None => mkObject3D (matrix o) (matrix o) None
  | Some p =>
      let p' := updateWorldMatrix p in
      mkObject3D (matrix o) (multiplyMatrices (matrixWorld p') (matrix o)) (Some p')
  end.

(** What a raycast against a mesh returns. *)
Record Face := mkFace { faceNormal : Vector3 }.

Record Intersection := mkIntersection {
  point : Vector3;
  face : Face;
  object : Object3D }.

End THREE.

(** ** The helpers imported from the engine

    [BigEps], [ColorComponentToFloat] and [IsDarkTextNeededForColor] are
    imported from files of the engine that the tool only consumes; they are
    taken as an interface. *)
Module RGBColor.
Record t := mk { r : R; g : R; b : R }.
End RGBColor.

Module RGBAColor.
Record t := mk { r : R; g : R; b : R; a : R }.
End RGBAColor.

Class Engine := {
  BigEps : R;
  ColorComponentToFloat : R -> R;
  IsDarkTextNeededForColor : RGBColor.t -> bool }.

(** Modelled from the spec: [IsEqualEps] of engine/geometry/geometry.js is not
    among the sources; the spec calls it the small near-zero/near-pi angle
    comparison, that is, the two numbers differ by less than the tolerance. *)
Definition IsEqualEps (a b eps : R) : bool :=
  if Rlt_dec (Rabs (b - a)) eps then true else false.

(** ** Free functions of identificationtool.js *)

Definition GetFaceWorldNormal (intersection : THREE.Intersection) : THREE.Vector3 :=
  let normalMatrix := THREE.identity in
  let object := THREE.updateWorldMatrix (THREE.object intersection) in
  let normalMatrix := THREE.extractRotation (THREE.matrixWorld object) in
  let faceNormal := THREE.clone (THREE.faceNormal (THREE.face intersection)) in
  let faceNormal := THREE.applyMatrix4 faceNormal normalMatrix in
  faceNormal.

(** [THREE.Object3D] as the marker uses it: where it sits, what it looks at,
    whether it is drawn, and the radius of the circle and sphere it holds. *)
Record MarkerObject := mkMarkerObject {
  position : THREE.Vector3;
  lookAtTarget : THREE.Vector3;
  visible : bool;
  radius : R }.

(** [class Marker].  The constructor leaves [intersection] null only until its
    last statement, [UpdatePosition], so a constructed marker always holds
    one. *)
Record Marker := mkMarker {
  intersection : THREE.Intersection;
  markerObject : MarkerObject }.

(** [UpdatePosition]: the intersection is stored, then the object is put at
    the origin, turned to look at the world normal, and moved to the point.
    ([updateMatrixWorld] refreshes matrices of the object that play no part
    here.) *)
Definition Marker_UpdatePosition (this : Marker) (intersection : THREE.Intersection) : Marker :=
  let faceNormal := GetFaceWorldNormal intersection in
  let o := markerObject this in
  let o := mkMarkerObject (THREE.mkVector3 0 0 0) (lookAtTarget o) (visible o) (radius o) in
  let o := mkMarkerObject (position o) faceNormal (visible o) (radius o) in
  let o := mkMarkerObject
             (THREE.mkVector3 (THREE.x (THREE.point intersection))
                              (THREE.y (THREE.point intersection))
                              (THREE.z (THREE.point intersection)))
             (lookAtTarget o) (visible o) (radius o) in
  mkMarker intersection o.

(** [new Marker (intersection, radius)]: a fresh [Object3D] (at the origin,
    looking down its own axis, visible) holding a circle and a sphere of the
    given radius, then [UpdatePosition]. *)
Definition Marker_new (intersection : THREE.Intersection) (radius : R) : Marker :=
  let o := mkMarkerObject (THREE.mkVector3 0 0 0) (THREE.mkVector3 0 0 1) true radius in
  Marker_UpdatePosition (mkMarker intersection o) intersection.

Definition Marker_Show (this : Marker) (show : bool) : Marker :=
  let o := markerObject this in
  mkMarker (intersection this) (mkMarkerObject (position o) (lookAtTarget o) show (radius o)).

Definition Marker_GetIntersection (this : Marker) : THREE.Intersection :=
  intersection this.

Definition Marker_GetObject (this : Marker) : MarkerObject := markerObject this.

Record MarkerValues := mkMarkerValues {
  pointsDistance : option R;
  parallelFacesDistance : option R;
  facesAngle : option R }.

Section CalculateMarkerValues.
Context `{Engine}.

(** Present in identificationtool.js only; no method of the tool calls it. *)

Definition CalculateMarkerValues (aMarker bMarker : Marker) : MarkerValues :=
  let aIntersection := Marker_GetIntersection aMarker in
  let bIntersection := Marker_GetIntersection bMarker in
  let result := mkMarkerValues None None None in
  let aNormal := GetFaceWorldNormal aIntersection in
  let bNormal := GetFaceWorldNormal bIntersection in
  let result := mkMarkerValues
      (Some (THREE.distanceTo (THREE.point aIntersection) (THREE.point bIntersection)))
      (parallelFacesDistance result) (facesAngle result) in
  let result := mkMarkerValues (pointsDistance result) (parallelFacesDistance result)
      (Some (THREE.angleTo aNormal bNormal)) in
  match facesAngle result with
  | Some angle =>
      if IsEqualEps angle 0 BigEps || IsEqualEps angle PI BigEps then
        let aPlane := THREE.setFromNormalAndCoplanarPoint aNormal (THREE.point aIntersection) in
        mkMarkerValues (pointsDistance result)
          (Some (Rabs (THREE.distanceToPoint aPlane (THREE.point bIntersection))))
          (facesAngle result)
      else result
  | None => result
  end.

End CalculateMarkerValues.

(** ** The collaborators of the tool *)

(** The two revisions of the file: [source/website/identificationtool.js] and
    the revision without the measuring function. *)
Inductive SourceFile := identificationtool_js | part_000.

(** References to [Marker] objects: positions in the store of markers. *)
Definition MarkerRef := nat.

Record LineBasicMaterial := mkLineBasicMaterial { color : N; depthTest : bool }.

(** What the tool hands to [viewer.AddExtraObject]: the [Object3D] of a marker
    (shared with the marker, hence by reference), a line, or a sphere mesh. *)
Inductive ExtraObject :=
  | MarkerObjectOf (marker : MarkerRef)
  | Line (points : list THREE.Vector3) (material : LineBasicMaterial)
  | SphereMesh (sphereRadius : R) (sphereColor : N).

Definition CreateMaterial : LineBasicMaterial :=
  mkLineBasicMaterial 0x263238%N false.

Definition CreateLineFromPoints (points : list THREE.Vector3) (material : LineBasicMaterial)
  : ExtraObject := Line points material.

Record MouseCoordinates := mkMouseCoordinates { mouseX : R; mouseY : R }.

Record DOMRect := mkDOMRect { rectLeft : R; rectRight : R; rectTop : R }.

(** Modelled from the spec: the viewer (engine/viewer/viewer.js) is not among
    the sources.  The spec describes it as the object that ray-casts against
    the current mesh under the mouse, maintains extra decorative scene
    objects, answers bounding-sphere queries and schedules renders. *)
Record Viewer := mkViewer {
  extraObjects : list ExtraObject;
  renders : nat;
  meshUnderMouse : MouseCoordinates -> option THREE.Intersection;
  boundingSphereRadius : R;
  canvasRect : DOMRect }.

Record Settings := mkSettings {
  backgroundIsEnvMap : bool;
  backgroundColor : RGBAColor.t }.

Record Button := mkButton { selected : bool }.

Inductive DomNode :=
  | TextNode (text : string)
  | SvgIcon (icon className title : string)
  | Div (className text : string).

(** The panel element: its children, the style properties the tool writes, and
    whether it is still in the document. *)
Record Panel := mkPanel {
  childNodes : list DomNode;
  styleColor : string;
  styleBackgroundColor : string;
  styleLeft : option R;
  styleTop : option R;
  attached : bool }.

(** The page: the computed background colour of [document.body] and the
    layout engine's answer to [panel.getBoundingClientRect ()]. *)
Record Document := mkDocument {
  bodyBackgroundColor : string;
  panelRect : Panel -> DOMRect }.

(** ** The tool and the objects it reaches

    The fields of [IdentificationTool], then the store of the [Marker] objects
    allocated so far, the page and the console. *)
Record State := mkState {
  viewer : Viewer;
  settings : Settings;
  isActive : bool;
  markers : list MarkerRef;
  tempMarker : option MarkerRef;
  panel : option Panel;
  button : option Button;
  heap : list Marker;
  document : Document;
  console : list (list MarkerRef) }.

Definition set_viewer (f : Viewer -> Viewer) (s : State) : State :=
  mkState (f (viewer s)) (settings s) (isActive s) (markers s) (tempMarker s)
          (panel s) (button s) (heap s) (document s) (console s).
Definition set_isActive (v : bool) (s : State) : State :=
  mkState (viewer s) (settings s) v (markers s) (tempMarker s)
          (panel s) (button s) (heap s) (document s) (console s).
Definition set_markers (f : list MarkerRef -> list MarkerRef) (s : State) : State :=
  mkState (viewer s) (settings s) (isActive s) (f (markers s)) (tempMarker s)
          (panel s) (button s) (heap s) (document s) (console s).
Definition set_tempMarker (v : option MarkerRef) (s : State) : State :=
  mkState (viewer s) (settings s) (isActive s) (markers s) v
          (panel s) (button s) (heap s) (document s) (console s).
Definition set_panel (v : option Panel) (s : State) : State :=
  mkState (viewer s) (settings s) (isActive s) (markers s) (tempMarker s)
          v (button s) (heap s) (document s) (console s).
Definition set_button (v : option Button) (s : State) : State :=
  mkState (viewer s) (settings s) (isActive s) (markers s) (tempMarker s)
          (panel s) v (heap s) (document s) (console s).
Definition set_heap (f : list Marker -> list Marker) (s : State) : State :=
  mkState (viewer s) (settings s) (isActive s) (markers s) (tempMarker s)
          (panel s) (button s) (f (heap s)) (document s) (console s).
Definition set_console (f : list (list MarkerRef) -> list (list MarkerRef)) (s : State) : State :=
  mkState (viewer s) (settings s) (isActive s) (markers s) (tempMarker s)
          (panel s) (button s) (heap s) (document s) (f (console s)).

(** ** Methods: state passing with exceptions

    A method call ends normally with a value or throws; either way the
    mutations made so far stay. *)
Inductive Exception := TypeError (message : string).

Inductive Completion (A : Type) :=
  | Normal (value : A)
  | Throw (e : Exception).
Arguments Normal {A} value.
Arguments Throw {A} e.

Definition Method (A : Type) : Type := State -> Completion A * State.

#[global] Instance Method_ret : MRet Method := fun A a s => (Normal a, s).

#[global] Instance Method_bind : MBind Method := fun A B f m s =>
  match m s with
  | (Normal a, s') => f a s'
  | (Throw e, s') => (Throw e, s')
  end.

Definition throw {A} (e : Exception) : Method A := fun s => (Throw e, s).
Definition gets {A} (f : State -> A) : Method A := fun s => (Normal (f s), s).
Definition modify (f : State -> State) : Method unit := fun s => (Normal tt, f s).

(** The state a call leaves behind, however it ends. *)
Definition after {A} (m : Method A) (s : State) : State := snd (m s).
Definition completion {A} (m : Method A) (s : State) : Completion A := fst (m s).

(** ** The host functions the methods call *)

Definition isDigit (c : ascii) : bool :=
  (48 <=? nat_of_ascii c)%nat && (nat_of_ascii c <=? 57)%nat.

(** The maximal runs of decimal digits of a string, left to right. *)
Fixpoint digitRuns (s : string) (run : string) : list string :=
  match s with
  | EmptyString => if String.eqb run "" then [] else [run]
  | String c rest =>
      if isDigit c then digitRuns rest (run +:+ String c "")
      else (if String.eqb run "" then [] else [run]) ++ digitRuns rest ""
  end.

(** [s.match (/\d+/g)]: every run of digits, or null when there is none. *)
Definition String_match_digits (s : string) : option (list string) :=
  match digitRuns s "" with
  | [] => None
  | runs => Some runs
  end.

(** [parseInt (s, 10)] on a run of digits. *)
Fixpoint parseInt10_from (acc : Z) (s : string) : Z :=
  match s with
  | EmptyString => acc
  | String c rest => parseInt10_from (acc * 10 + (Z.of_nat (nat_of_ascii c) - 48))%Z rest
  end.

Definition parseInt10 (s : string) : Z := parseInt10_from 0%Z s.

(** Modelled from the spec: [AddDiv] of engine/viewer/domutils.js (element
    creation) is not among the sources; the new element is appended to its
    parent.  The class name is fixed by the only call that creates a panel. *)
Definition AddDiv_body (className : string) : Panel :=
  mkPanel [] "" "" None None true.

Definition panel_set_children (c : list DomNode) (p : Panel) : Panel :=
  mkPanel c (styleColor p) (styleBackgroundColor p) (styleLeft p) (styleTop p) (attached p).
Definition panel_set_color (c : string) (p : Panel) : Panel :=
  mkPanel (childNodes p) c (styleBackgroundColor p) (styleLeft p) (styleTop p) (attached p).
Definition panel_set_backgroundColor (c : string) (p : Panel) : Panel :=
  mkPanel (childNodes p) (styleColor p) c (styleLeft p) (styleTop p) (attached p).
Definition panel_set_position (l t : R) (p : Panel) : Panel :=
  mkPanel (childNodes p) (styleColor p) (styleBackgroundColor p) (Some l) (Some t) (attached p).
Definition panel_remove (p : Panel) : Panel :=
  mkPanel (childNodes p) (styleColor p) (styleBackgroundColor p) (styleLeft p) (styleTop p) false.

(** Assigning a plain text to [innerHTML] replaces the children by that text. *)
Definition panel_set_innerHTML (html : string) (p : Panel) : Panel :=
  panel_set_children [TextNode html] p.

(** A property access on [this.panel]: a [TypeError] when it is null. *)
Definition with_panel (f : Panel -> Panel) : Method unit :=
  p ← gets panel;
  match p with
  | None => throw (TypeError "this.panel is null")
  | Some p => modify (set_panel (Some (f p)))
  end.

(** Modelled from the spec: [ClearDomElement] of engine/viewer/domutils.js
    (element clearing) is not among the sources; it removes every child. *)
Definition ClearDomElement_panel : Method unit :=
  with_panel (panel_set_children []).

(** Modelled from the spec: the methods of the viewer the tool calls. *)
Definition Viewer_GetMeshIntersectionUnderMouse (mouseCoordinates : MouseCoordinates)
  : Method (option THREE.Intersection) :=
  gets (fun s => meshUnderMouse (viewer s) mouseCoordinates).

Definition Viewer_AddExtraObject (o : ExtraObject) : Method unit :=
  modify (set_viewer (fun v =>
    mkViewer (extraObjects v ++ [o]) (renders v) (meshUnderMouse v)
             (boundingSphereRadius v) (canvasRect v))).

Definition Viewer_ClearExtra : Method unit :=
  modify (set_viewer (fun v =>
    mkViewer [] (renders v) (meshUnderMouse v) (boundingSphereRadius v) (canvasRect v))).

Definition Viewer_Render : Method unit :=
  modify (set_viewer (fun v =>
    mkViewer (extraObjects v) (S (renders v)) (meshUnderMouse v)
             (boundingSphereRadius v) (canvasRect v))).

(** [new Marker (...)]: the object takes the next free place of the store. *)
Definition Marker_alloc (m : Marker) : Method MarkerRef :=
  ref ← gets (fun s => length (heap s));
  modify (set_heap (fun h => h ++ [m]));;
  mret ref.

(** Reading through a reference to a marker. *)
Definition Marker_deref (ref : MarkerRef) : Method Marker :=
  m ← gets (fun s => heap s !! ref);
  match m with
  | Some m => mret m
  | None => throw (TypeError "marker is undefined")
  end.

(** A method of [Marker] that mutates the object in place. *)
Definition Marker_mutate (ref : MarkerRef) (f : Marker -> Marker) : Method unit :=
  modify (set_heap (alter f ref)).

(** ** [class IdentificationTool] *)

(** [new IdentificationTool (viewer, settings)], on a page with no marker
    allocated yet. *)
Definition constructor (viewer : Viewer) (settings : Settings) (document : Document) : State :=
  mkState viewer settings false [] None None None [] document [].

Section IdentificationTool.
Context `{Engine}.
Variable src : SourceFile.

Definition SetButton (button : Button) : Method unit :=
  modify (set_button (Some button)).

Definition IsActive : Method bool := gets isActive.

(** [this.button.SetSelected (isActive)]. *)
Definition Button_SetSelected (isSelected : bool) : Method unit :=
  b ← gets button;
  match b with
  | None => throw (TypeError "this.button is null")
  | Some _ => modify (set_button (Some (mkButton isSelected)))
  end.

Definition BlendBackgroundWithPageBackground (backgroundColor : RGBAColor.t)
  : Method RGBColor.t :=
  bodyStyle ← gets (fun s => bodyBackgroundColor (document s));
  match String_match_digits bodyStyle with
  | None => throw (TypeError "bgColors is null")
  | Some bgColors =>
      if (length bgColors <? 3)%nat then
        mret (RGBColor.mk (RGBAColor.r backgroundColor) (RGBAColor.g backgroundColor)
                          (RGBAColor.b backgroundColor))
      else
        let alpha := ColorComponentToFloat (RGBAColor.a backgroundColor) in
        let bgColor i := IZR (parseInt10 (default ""%string (bgColors !! i))) in
        mret (RGBColor.mk
          (bgColor 0%nat * (1 - alpha) + RGBAColor.r backgroundColor * alpha)%R
          (bgColor 1%nat * (1 - alpha) + RGBAColor.g backgroundColor * alpha)%R
          (bgColor 2%nat * (1 - alpha) + RGBAColor.b backgroundColor * alpha)%R)
  end.

(** The helper [AddValue] declared inside [UpdatePanel] of
    identificationtool.js: an icon and a value cell appended to the panel. *)
Definition AddValue (icon title value : string) : Method unit :=
  with_panel (fun p =>
    panel_set_children (childNodes p ++ [SvgIcon icon "left_inline" title;
                                         Div "ov_measure_value" value]) p).

Definition Resize : Method unit :=
  active ← gets isActive;
  if negb active then mret tt
  else
    canvasRect ← gets (fun s => canvasRect (viewer s));
    p ← gets panel;
    match p with
    | None => throw (TypeError "this.panel is null")
    | Some p =>
        panelRect ← gets (fun s => panelRect (document s) p);
        let canvasWidth := (rectRight canvasRect - rectLeft canvasRect)%R in
        let panelWidth := (rectRight panelRect - rectLeft panelRect)%R in
        with_panel (panel_set_position
          (rectLeft canvasRect + (canvasWidth - panelWidth) / 2)%R
          (rectTop canvasRect + 10)%R)
    end.

Definition UpdatePanel : Method unit :=
  ClearDomElement_panel;;
  settings ← gets settings;
  (if backgroundIsEnvMap settings then
     with_panel (panel_set_color "#ffffff");;
     with_panel (panel_set_backgroundColor "rgba(0,0,0,0.5)")
   else
     blendedColor ← BlendBackgroundWithPageBackground (backgroundColor settings);
     (if IsDarkTextNeededForColor blendedColor then
        with_panel (panel_set_color "#000000")
      else
        with_panel (panel_set_color "#ffffff"));;
     with_panel (panel_set_backgroundColor "transparent"));;
  n ← gets (fun s => length (markers s));
  (if (n =? 0)%nat then with_panel (panel_set_innerHTML "Select 1st")
   else if (n =? 1)%nat then with_panel (panel_set_innerHTML "Select 5th")
   else if (n =? 2)%nat then with_panel (panel_set_innerHTML "Select heel")
   else
     match src with
     | identificationtool_js =>
         with_panel (panel_set_innerHTML "Check logs");;
         ms ← gets markers;
         modify (set_console (fun c => c ++ [ms]));;
         let sphere := SphereMesh (1 / 2) 0xffff00%N in
         Viewer_AddExtraObject sphere;;
         let origin := THREE.mkVector3 0 0 0 in
         let x := THREE.mkVector3 2 0 0 in
         let y := THREE.mkVector3 0 2 0 in
         let z := THREE.mkVector3 0 0 2 in
         let redMaterial := mkLineBasicMaterial 0xff0000%N false in
         let greenMaterial := mkLineBasicMaterial 0x00ff00%N false in
         let blueMaterial := mkLineBasicMaterial 0x0000ff%N false in
         Viewer_AddExtraObject (CreateLineFromPoints [origin; x] redMaterial);;
         Viewer_AddExtraObject (CreateLineFromPoints [origin; y] greenMaterial);;
         Viewer_AddExtraObject (CreateLineFromPoints [origin; z] blueMaterial)
     | part_000 => mret tt
     end);;
  Resize.

Definition ClearMarkers : Method unit :=
  Viewer_ClearExtra;;
  modify (set_markers (fun _ => []));;
  modify (set_tempMarker None).

Definition SetActive (isActive' : bool) : Method unit :=
  current ← gets isActive;
  if Bool.eqb current isActive' then mret tt
  else
    modify (set_isActive isActive');;
    Button_SetSelected isActive';;
    active ← gets isActive;
    if (active : bool) then
      modify (set_panel (Some (AddDiv_body "ov_identification_panel")));;
      UpdatePanel;;
      Resize
    else
      ClearMarkers;;
      with_panel panel_remove.

Definition GenerateMarker (intersection : THREE.Intersection) : Method MarkerRef :=
  boundingSphereRadius ← gets (fun s => boundingSphereRadius (viewer s));
  let radius := (boundingSphereRadius / 20)%R in
  marker ← Marker_alloc (Marker_new intersection radius);
  Viewer_AddExtraObject (MarkerObjectOf marker);;
  mret marker.

Definition AddMarker (intersection : THREE.Intersection) : Method unit :=
  marker ← GenerateMarker intersection;
  modify (set_markers (fun ms => ms ++ [marker]));;
  match src with
  | identificationtool_js =>
      n ← gets (fun s => length (markers s));
      if (n =? 2)%nat then
        let material := CreateMaterial in
        m0 ← gets (fun s => default 0%nat (markers s !! 0%nat));
        m1 ← gets (fun s => default 0%nat (markers s !! 1%nat));
        aMarker ← Marker_deref m0;
        bMarker ← Marker_deref m1;
        let aPoint := THREE.point (Marker_GetIntersection aMarker) in
        let bPoint := THREE.point (Marker_GetIntersection bMarker) in
        Viewer_AddExtraObject (CreateLineFromPoints [aPoint; bPoint] material)
      else mret tt
  | part_000 => mret tt
  end.

(** The test that makes [Click] return without adding a marker:
    [this.markers.length === 3] in identificationtool.js,
    [this.markers.length >= 3] in the other revision. *)
Definition Click_guard (n : nat) : bool :=
  match src with
  | identificationtool_js => (n =? 3)%nat
  | part_000 => (3 <=? n)%nat
  end.

Definition Click (mouseCoordinates : MouseCoordinates) : Method unit :=
  intersection ← Viewer_GetMeshIntersectionUnderMouse mouseCoordinates;
  match intersection with
  | None =>
      ClearMarkers;;
      UpdatePanel
  | Some intersection =>
      n ← gets (fun s => length (markers s));
      if Click_guard n then mret tt
      else
        AddMarker intersection;;
        UpdatePanel
  end.

Definition MouseMove (mouseCoordinates : MouseCoordinates) : Method unit :=
  intersection ← Viewer_GetMeshIntersectionUnderMouse mouseCoordinates;
  match intersection with
  | None =>
      t ← gets tempMarker;
      match t with
      | Some t =>
          Marker_mutate t (fun m => Marker_Show m false);;
          Viewer_Render
      | None => mret tt
      end
  | Some intersection =>
      t ← gets tempMarker;
      t ← match t with
          | None =>
              t ← GenerateMarker intersection;
              modify (set_tempMarker (Some t));;
              mret t
          | Some t => mret t
          end;
      Marker_mutate t (fun m => Marker_UpdatePosition m intersection);;
      Marker_mutate t (fun m => Marker_Show m true);;
      Viewer_Render
  end.

End IdentificationTool.

(** ** Reachable states

    The host page calls the public methods in any order; between calls the
    scene, the settings and the page may change. *)
Inductive Call :=
  | CallSetButton (button : Button)
  | CallIsActive
  | CallSetActive (isActive : bool)
  | CallClick (mouseCoordinates : MouseCoordinates)
  | CallMouseMove (mouseCoordinates : MouseCoordinates)
  | CallUpdatePanel
  | CallResize
  | CallClearMarkers.

Definition environment (v : Viewer) (st : Settings) (d : Document) (s : State) : State :=
  mkState v st (isActive s) (markers s) (tempMarker s) (panel s) (button s)
          (heap s) d (console s).

Section Reachable.
Context `{Engine}.
Variable src : SourceFile.

Definition perform (c : Call) (s : State) : State :=
  match c with
  | CallSetButton b => after (SetButton b) s
  | CallIsActive => after IsActive s
  | CallSetActive b => after (SetActive src b) s
  | CallClick m => after (Click src m) s
  | CallMouseMove m => after (MouseMove m) s
  | CallUpdatePanel => after (UpdatePanel src) s
  | CallResize => after Resize s
  | CallClearMarkers => after ClearMarkers s
  end.

Inductive reachable : State -> Prop :=
  | reachable_constructor v st d : reachable (constructor v st d)
  | reachable_call c s : reachable s -> reachable (perform c s)
  | reachable_environment v st d s : reachable s -> reachable (environment v st d s).

(** The states reached by a given list of calls, for running examples. *)
Definition run (calls : list Call) (s : State) : State :=
  fold_left (fun s c => perform c s) calls s.

End Reachable.

(** What the invariants speak about: the selection, the hover marker and the
    store of marker objects. *)
Definition selection (s : State) : list MarkerRef * option MarkerRef * list Marker :=
  (markers s, tempMarker s, heap s).

(** The viewer together with the selected markers. *)
Definition scene_and_selection (s : State) : Viewer * list MarkerRef :=
  (viewer s, markers s).

(** What the panel shows, if there is a panel, together with the selection. *)
Definition contents (s : State) : option (list DomNode) * list MarkerRef :=
  (childNodes <$> panel s, markers s).

Record well_formed (s : State) : Prop := mk_well_formed {
  wf_count : length (markers s) <= 3;
  wf_markers : forall r, r ∈ markers s -> r < length (heap s);
  wf_temp : forall t, tempMarker s = Some t -> t < length (heap s) /\ t ∉ markers s }.

(** A method leaves a component of the state alone, however it ends. *)
Definition frames {A X} (proj : State -> X) (m : Method A) : Prop :=
  forall s, proj (after m s) = proj s.

(** Whether a panel shows a measured value: a cell of the class that
    [AddValue] gives to values. *)
Definition is_measure_value (n : DomNode) : bool :=
  match n with
  | Div className _ => String.eqb className "ov_measure_value"
  | _ => false
  end.

Definition displays_measurement (p : Panel) : bool :=
  existsb is_measure_value (childNodes p).

(** A small engine and scene to run the tool on. *)
Definition example_engine : Engine :=
  {| BigEps := 1 / 10000;
     ColorComponentToFloat := fun c => (c / 255)%R;
     IsDarkTextNeededForColor := fun _ => true |}.

(** ** Reference notions for the geometry *)

(** The transform from an object's frame to the world: the local matrices of
    the object and its ancestors, multiplied from the root down. *)
Fixpoint worldTransform (o : THREE.Object3D) : THREE.Matrix4 :=
  match THREE.parent o with
  | None => THREE.matrix o
  | Some p => THREE.multiplyMatrices (worldTransform p) (THREE.matrix o)
  end.

(** A matrix that only turns: unit axes, no translation, affine last row.
    [orthogonal_axes] adds that the axes are perpendicular to each other. *)
Definition unit_axes (m : THREE.Matrix4) : Prop :=
  THREE.lengthSq (THREE.setFromMatrixColumn m 0) = 1%R /\
  THREE.lengthSq (THREE.setFromMatrixColumn m 1) = 1%R /\
  THREE.lengthSq (THREE.setFromMatrixColumn m 2) = 1%R /\
  m = THREE.mkMatrix4 (THREE.e0 m) (THREE.e1 m) (THREE.e2 m) 0
                      (THREE.e4 m) (THREE.e5 m) (THREE.e6 m) 0
                      (THREE.e8 m) (THREE.e9 m) (THREE.e10 m) 0
                      0 0 0 1.

Definition orthogonal_axes (m : THREE.Matrix4) : Prop :=
  THREE.dot (THREE.setFromMatrixColumn m 0) (THREE.setFromMatrixColumn m 1) = 0%R /\
  THREE.dot (THREE.setFromMatrixColumn m 0) (THREE.setFromMatrixColumn m 2) = 0%R /\
  THREE.dot (THREE.setFromMatrixColumn m 1) (THREE.setFromMatrixColumn m 2) = 0%R.

(** The world matrices [extractRotation] can divide: every axis column has a
    length other than zero.  A mesh scaled by zero along an axis has none. *)
Definition regular_axes (m : THREE.Matrix4) : Prop :=
  THREE.lengthSq (THREE.setFromMatrixColumn m 0) <> 0%R /\
  THREE.lengthSq (THREE.setFromMatrixColumn m 1) <> 0%R /\
  THREE.lengthSq (THREE.setFromMatrixColumn m 2) <> 0%R.

(** A marker on an object with such a world matrix. *)
Definition regular_marker (m : Marker) : Prop :=
  regular_axes (worldTransform (THREE.object (Marker_GetIntersection m))).

(** The two tests of [CalculateMarkerValues] on the angle. *)
Definition parallel_condition `{Engine} (angle : R) : bool :=
  IsEqualEps angle 0 BigEps || IsEqualEps angle PI BigEps.

(** A group scaled along its axes, at the root of the scene: its local
    matrix is the identity scaled by [v]. *)
Definition scaled_group (v : THREE.Vector3) : THREE.Object3D :=
  THREE.mkObject3D (THREE.scale THREE.identity v) THREE.identity None.

(** The turn about the third axis by the angle of cosine 8/17 and sine
    15/17. *)
Definition example_turn : THREE.Matrix4 :=
  THREE.mkMatrix4 (8 / 17) (15 / 17) 0 0  (- (15 / 17)) (8 / 17) 0 0  0 0 1 0  0 0 0 1.

(** A mesh turned by [example_turn] inside a parent. *)
Definition turned_mesh (parent : THREE.Object3D) : THREE.Object3D :=
  THREE.mkObject3D example_turn THREE.identity (Some parent).

(** The turned mesh in a group stretched unevenly, by 7 along the first axis
    and 26 along the second: in the world its axes are no longer
    perpendicular.  [even_object] is the same mesh in a group scaled by 2 in
    every direction. *)
Definition sheared_object : THREE.Object3D :=
  turned_mesh (scaled_group (THREE.mkVector3 7 26 1)).

Definition even_object : THREE.Object3D :=
  turned_mesh (scaled_group (THREE.mkVector3 2 2 2)).

(** A hit on a face of unit normal (3/5, 4/5, 0) of that mesh, at the point
    of the second axis of the world at height [py]. *)
Definition sheared_hit (py : R) : THREE.Intersection :=
  THREE.mkIntersection (THREE.mkVector3 0 py 0)
                       (THREE.mkFace (THREE.mkVector3 (3 / 5) (4 / 5) 0)) sheared_object.

Definition even_hit (py : R) : THREE.Intersection :=
  THREE.mkIntersection (THREE.mkVector3 0 py 0)
                       (THREE.mkFace (THREE.mkVector3 (3 / 5) (4 / 5) 0)) even_object.

Definition sheared_marker (py : R) : Marker := Marker_new (sheared_hit py) 1.

(** ** A page to run the tool on

    A mesh at the origin of the scene, never moved, and a viewer whose ray
    hits the mesh at a chosen point whatever the mouse position; [aim] is the
    change of the environment that moves that point. *)
Definition example_object : THREE.Object3D :=
  THREE.mkObject3D THREE.identity THREE.identity None.

Definition example_hit (px py pz : R) : THREE.Intersection :=
  THREE.mkIntersection (THREE.mkVector3 px py pz)
                       (THREE.mkFace (THREE.mkVector3 0 0 1)) example_object.

(** A marker on a face of that mesh. *)
Definition example_marker (px py pz : R) : Marker := Marker_new (example_hit px py pz) 1.

Definition example_viewer (hit : option THREE.Intersection) : Viewer :=
  mkViewer [] 0 (fun _ => hit) 20 (mkDOMRect 0 800 0).

Definition example_settings : Settings :=
  mkSettings false (RGBAColor.mk 255 255 255 255).

Definition example_document : Document :=
  mkDocument "rgb(255, 255, 255)" (fun _ => mkDOMRect 0 100 0).

Definition example_mouse : MouseCoordinates := mkMouseCoordinates 0 0.

Definition aim (hit : option THREE.Intersection) (s : State) : State :=
  environment
    (mkViewer (extraObjects (viewer s)) (renders (viewer s)) (fun _ => hit)
              (boundingSphereRadius (viewer s)) (canvasRect (viewer s)))
    (settings s) (document s) s.

(** A mesh moved to (5, 6, 7) and stretched by 2, 3 and 4 along its axes,
    without being turned, hit on a face that looks along the third axis. *)
Definition placed_object : THREE.Object3D :=
  THREE.mkObject3D
    (THREE.scale (THREE.setPosition THREE.identity (THREE.mkVector3 5 6 7))
                 (THREE.mkVector3 2 3 4))
    THREE.identity None.

Definition placed_hit : THREE.Intersection :=
  THREE.mkIntersection (THREE.mkVector3 5 6 11)
                       (THREE.mkFace (THREE.mkVector3 0 0 1)) placed_object.

(** An active tool with a fresh panel and two markers selected, five units
    apart. *)
Definition example_pair : State :=
  mkState (example_viewer None) example_settings true [0; 1] None
          (Some (AddDiv_body "ov_identification_panel")) (Some (mkButton true))
          [example_marker 0 0 0; example_marker 3 4 0] example_document [].

(** A state no run of the tool produces: four markers selected. *)
Definition example_four : State :=
  mkState (example_viewer (Some (example_hit 0 0 0))) example_settings true [0; 1; 2; 3] None
          (Some (AddDiv_body "ov_identification_panel")) (Some (mkButton true))
          [example_marker 0 0 0; example_marker 3 4 0; example_marker 0 2 0;
           example_marker 1 1 0] example_document [].

(** The tool switched on, then after one, two and three clicks on the mesh. *)
Definition example_active (src : SourceFile) : State :=
  perform (H:=example_engine) src (CallSetActive true)
    (perform (H:=example_engine) src (CallSetButton (mkButton false))
       (constructor (example_viewer (Some (example_hit 0 0 0)))
                    example_settings example_document)).

Definition example_one (src : SourceFile) : State :=
  perform (H:=example_engine) src (CallClick example_mouse) (example_active src).

Definition example_two (src : SourceFile) : State :=
  perform (H:=example_engine) src (CallClick example_mouse)
    (aim (Some (example_hit 3 4 0)) (example_one src)).

Definition example_three (src : SourceFile) : State :=
  perform (H:=example_engine) src (CallClick example_mouse)
    (aim (Some (example_hit 0 2 0)) (example_two src)).

(** ** Notions used by the further properties *)

(** The switches of the tool: whether it is active, its button, and whether
    its panel is in the page; with the selection. *)
Definition tool_status (s : State)
  : bool * option Button * option bool * (list MarkerRef * option MarkerRef * list Marker) :=
  (isActive s, button s, attached <$> panel s, selection s).

(** The ways one call can change the selection and the store of markers:
    not at all, by clearing the selection, by selecting a new marker, or by
    creating, moving or hiding the hover marker. *)
Inductive transition (s s' : State) : Prop :=
  | transition_same :
      selection s' = selection s -> transition s s'
  | transition_cleared :
      selection s' = ([], None, heap s) -> transition s s'
  | transition_added (i : THREE.Intersection) (r : R) :
      length (markers s) < 3 ->
      selection s' = (markers s ++ [length (heap s)], tempMarker s,
                      heap s ++ [Marker_new i r]) ->
      transition s s'
  | transition_hover_new (i : THREE.Intersection) (r : R) :
      tempMarker s = None ->
      selection s' = (markers s, Some (length (heap s)),
                      alter (fun m => Marker_Show m true) (length (heap s))
                        (alter (fun m => Marker_UpdatePosition m i) (length (heap s))
                           (heap s ++ [Marker_new i r]))) ->
      transition s s'
  | transition_hover_moved (i : THREE.Intersection) (t : MarkerRef) :
      tempMarker s = Some t ->
      selection s' = (markers s, Some t,
                      alter (fun m => Marker_Show m true) t
                        (alter (fun m => Marker_UpdatePosition m i) t (heap s))) ->
      transition s s'
  | transition_hover_hidden (t : MarkerRef) :
      tempMarker s = Some t ->
      selection s' = (markers s, Some t, alter (fun m => Marker_Show m false) t (heap s)) ->
      transition s s'.



(** A method ends normally from this state and leaves a state satisfying [P]. *)
Definition good (P : State -> Prop) {A} (m : Method A) (s : State) : Prop :=
  (exists a, completion m s = Normal a) /\ P (after m s).

(** What [UpdatePanel] needs in order not to throw: a panel, and a page
    background it can read unless the background is an environment map. *)
Definition panel_ready (s : State) : Prop :=
  is_Some (panel s) /\
  (backgroundIsEnvMap (settings s) = true \/
   String_match_digits (bodyBackgroundColor (document s)) <> None).

(** ** The exporter (second document of part_000)

    The model, the format, the extension and the files are opaque to
    [Export]; an exporter is known by its test [CanExport] and by the file
    lists it hands, one after the other, to the callback it is given. *)
Section ExporterModel.
Variables Model Format Extension File : Type.

Record FormatExporter := mkFormatExporter {
  CanExport : Format -> Extension -> bool;
  Export : Model -> Format -> list (list File) }.

(** [callbacks.onError ()] and [callbacks.onSuccess (files)]. *)
Inductive CallbackCall :=
  | onError
  | onSuccess (files : list File).

(** [new OV.Exporter ()]: the five exporters in the order of the source. *)
Definition Exporter_new (obj stl ply off gltf : FormatExporter) : list FormatExporter :=
  [obj; stl; ply; off; gltf].

(** The loop of [Export]: the first exporter that can export, or null. *)
Fixpoint Exporter_Export_loop (exporters : list FormatExporter)
    (format : Format) (extension : Extension) : option FormatExporter :=
  match exporters with
  | [] => None
  | currentExporter :: rest =>
      if CanExport currentExporter format extension then Some currentExporter
      else Exporter_Export_loop rest format extension
  end.

(** [Exporter.Export]: the calls made on [callbacks], in order. *)
Definition Exporter_Export (exporters : list FormatExporter) (model : Model)
    (format : Format) (extension : Extension) : list CallbackCall :=
  match Exporter_Export_loop exporters format extension with
  | None => [onError]
  | Some exporter =>
      map (fun files => if (length files =? 0)%nat then onError else onSuccess files)
          (Export exporter model format)
  end.

End ExporterModel.
Arguments CanExport {Model Format Extension File}.
Arguments Export {Model Format Extension File}.
Arguments onError {File}.
Arguments onSuccess {File}.
Arguments Exporter_new {Model Format Extension File}.
Arguments Exporter_Export_loop {Model Format Extension File}.
Arguments Exporter_Export {Model Format Extension File}.

(** The scene, the console and the selected markers. *)
Definition scene_and_console (s : State) : Viewer * list (list MarkerRef) * list MarkerRef :=
  (viewer s, console s, markers s).

(** The colours of the panel, if there is a panel. *)
Definition panel_colours (s : State) : option (string * string) :=
  (fun p => (styleColor p, styleBackgroundColor p)) <$> panel s.

(** The page before anything was called, and the tool given its button. *)
Definition example_start : State :=
  constructor (example_viewer (Some (example_hit 0 0 0))) example_settings example_document.

Definition example_idle : State := after (SetButton (mkButton false)) example_start.

(** A marker on a degenerate face, whose normal is the zero vector. *)
Definition degenerate_marker : Marker :=
  Marker_new (THREE.mkIntersection (THREE.mkVector3 0 0 0)
                (THREE.mkFace (THREE.mkVector3 0 0 0)) example_object) 1.

(** Exporters of text files for formats numbered 0 and 1: the first can
    export nothing, the second writes two files for format 0, the third can
    export both formats but comes up with no file. *)
Definition example_exporter_off : FormatExporter unit nat string string :=
  mkFormatExporter unit nat string string (fun _ _ => false) (fun _ _ => []).

Definition example_exporter_obj : FormatExporter unit nat string string :=
  mkFormatExporter unit nat string string
    (fun format _ => (format =? 0)%nat)
    (fun _ _ => [["model.obj"; "model.mtl"]]%string).

Definition example_exporter_empty : FormatExporter unit nat string string :=
  mkFormatExporter unit nat string string (fun _ _ => true) (fun _ _ => [[]]).

(* ================================================================== *)
(** * Properties *)

(** ** Reasoning about methods *)

Lemma after_bind {A B} (m : Method A) (k : A -> Method B) s :
  after (m ≫= k) s =
  match completion m s with
  | Normal a => after (k a) (after m s)
  | Throw _ => after m s
  end.
Proof.
  unfold after, completion, mbind, Method_bind.
  destruct (m s) as [[a|e] s']; reflexivity.
Qed.

Lemma completion_bind {A B} (m : Method A) (k : A -> Method B) s :
  completion (m ≫= k) s =
  match completion m s with
  | Normal a => completion (k a) (after m s)
  | Throw e => Throw e
  end.
Proof.
  unfold after, completion, mbind, Method_bind.
  destruct (m s) as [[a|e] s']; reflexivity.
Qed.

Lemma frames_ret {A X} (proj : State -> X) (a : A) : frames proj (mret a).
Proof. intros s. reflexivity. Qed.

Lemma frames_throw {A X} (proj : State -> X) e : frames proj (throw (A:=A) e).
Proof. intros s. reflexivity. Qed.

Lemma frames_gets {A X} (proj : State -> X) (f : State -> A) : frames proj (gets f).
Proof. intros s. reflexivity. Qed.

Lemma frames_modify {X} (proj : State -> X) (f : State -> State) :
  (forall s, proj (f s) = proj s) -> frames proj (modify f).
Proof. intros Hf s. apply Hf. Qed.

Lemma frames_bind {A B X} (proj : State -> X) (m : Method A) (k : A -> Method B) :
  frames proj m -> (forall a, frames proj (k a)) -> frames proj (m ≫= k).
Proof.
  intros Hm Hk s. rewrite after_bind.
  destruct (completion m s); [rewrite Hk|]; apply Hm.
Qed.

Create HintDb frames discriminated.
#[local] Hint Resolve frames_ret frames_throw frames_gets frames_bind : frames.

Ltac frames_step :=
  match goal with
  | |- frames _ (mret _) => apply frames_ret
  | |- frames _ (throw _) => apply frames_throw
  | |- frames _ (gets _) => apply frames_gets
  | |- frames _ (modify _) => apply frames_modify; intros []; reflexivity
  | |- frames _ (_ ≫= _) => apply frames_bind; [| intros ?]
  | |- frames _ (if ?b then _ else _) => destruct b
  | |- frames _ (match ?x with _ => _ end) => destruct x
  | |- frames _ _ => solve [eauto with frames]
  end.

Ltac frames_tac := repeat frames_step.

Lemma with_panel_frames_selection f : frames selection (with_panel f).
Proof. unfold with_panel. frames_tac. Qed.

Lemma with_panel_frames_viewer f : frames viewer (with_panel f).
Proof. unfold with_panel. frames_tac. Qed.

Lemma Viewer_AddExtraObject_frames_selection o : frames selection (Viewer_AddExtraObject o).
Proof. unfold Viewer_AddExtraObject. frames_tac. Qed.

Lemma Viewer_Render_frames_selection : frames selection Viewer_Render.
Proof. unfold Viewer_Render. frames_tac. Qed.

Lemma Marker_deref_frames {X} (proj : State -> X) ref : frames proj (Marker_deref ref).
Proof. unfold Marker_deref. frames_tac. Qed.

#[local] Hint Resolve with_panel_frames_selection with_panel_frames_viewer
  Viewer_AddExtraObject_frames_selection Viewer_Render_frames_selection
  Marker_deref_frames : frames.

Section MethodFrames.
Context `{Engine}.
Variable src : SourceFile.

Lemma BlendBackgroundWithPageBackground_frames {X} (proj : State -> X) c :
  frames proj (BlendBackgroundWithPageBackground c).
Proof. unfold BlendBackgroundWithPageBackground. frames_tac. Qed.

Lemma Button_SetSelected_frames_selection b : frames selection (Button_SetSelected b).
Proof. unfold Button_SetSelected. frames_tac. Qed.

Lemma Resize_frames_selection : frames selection Resize.
Proof. unfold Resize. frames_tac. Qed.

Lemma Resize_frames_viewer : frames viewer Resize.
Proof. unfold Resize. frames_tac. Qed.

Hint Resolve BlendBackgroundWithPageBackground_frames Button_SetSelected_frames_selection
  Resize_frames_selection Resize_frames_viewer : frames.

(** [UpdatePanel] only writes to the panel, the console and the viewer. *)
Lemma UpdatePanel_frames_selection : frames selection (UpdatePanel src).
Proof. unfold UpdatePanel, ClearDomElement_panel. frames_tac. Qed.

Hint Resolve UpdatePanel_frames_selection : frames.

Lemma SetButton_frames_selection b : frames selection (SetButton b).
Proof. unfold SetButton. frames_tac. Qed.

Lemma IsActive_frames_selection : frames selection IsActive.
Proof. unfold IsActive. frames_tac. Qed.

Lemma ClearMarkers_selection s :
  selection (after ClearMarkers s) = ([], None, heap s).
Proof. reflexivity. Qed.

Lemma ClearMarkers_completion s : completion ClearMarkers s = Normal tt.
Proof. reflexivity. Qed.

Lemma GenerateMarker_run i s :
  GenerateMarker i s =
  (Normal (length (heap s)),
   set_viewer (fun v => mkViewer (extraObjects v ++ [MarkerObjectOf (length (heap s))])
                          (renders v) (meshUnderMouse v) (boundingSphereRadius v)
                          (canvasRect v))
     (set_heap (fun h => h ++ [Marker_new i (boundingSphereRadius (viewer s) / 20)]) s)).
Proof. reflexivity. Qed.

Lemma AddMarker_selection i s :
  selection (after (AddMarker src i) s) =
  (markers s ++ [length (heap s)], tempMarker s,
   heap s ++ [Marker_new i (boundingSphereRadius (viewer s) / 20)]).
Proof.
  unfold AddMarker. rewrite after_bind.
  unfold completion, after at 2 3. rewrite GenerateMarker_run. cbn [fst snd].
  rewrite after_bind. cbn [completion modify fst].
  match goal with
  | |- selection (after ?m ?s') = _ =>
      assert (Hf : frames selection m) by (frames_tac); rewrite (Hf s')
  end.
  reflexivity.
Qed.

(** A click on the mesh with room left: the selection after the call. *)
Lemma Click_hit_selection c i s :
  meshUnderMouse (viewer s) c = Some i ->
  Click_guard src (length (markers s)) = false ->
  selection (after (Click src c) s) =
  (markers s ++ [length (heap s)], tempMarker s,
   heap s ++ [Marker_new i (boundingSphereRadius (viewer s) / 20)]).
Proof.
  intros Hhit Hguard. unfold Click. rewrite after_bind.
  cbn [completion after Viewer_GetMeshIntersectionUnderMouse gets fst snd].
  rewrite Hhit. rewrite after_bind.
  cbn [completion after gets fst snd]. rewrite Hguard.
  rewrite after_bind.
  destruct (completion (AddMarker src i) s);
    [rewrite UpdatePanel_frames_selection|]; apply AddMarker_selection.
Qed.

(** A click on the mesh with three markers (or more, in the revision that
    tests [>= 3]) returns at once. *)
Lemma Click_hit_rejected c i s :
  meshUnderMouse (viewer s) c = Some i ->
  Click_guard src (length (markers s)) = true ->
  Click src c s = (Normal tt, s).
Proof.
  intros Hhit Hguard. unfold Click.
  unfold mbind, Method_bind, Viewer_GetMeshIntersectionUnderMouse, gets.
  rewrite Hhit, Hguard. reflexivity.
Qed.

Lemma Click_miss_selection c s :
  meshUnderMouse (viewer s) c = None ->
  selection (after (Click src c) s) = ([], None, heap s).
Proof.
  intros Hmiss. unfold Click. rewrite after_bind.
  cbn [completion after Viewer_GetMeshIntersectionUnderMouse gets fst snd].
  rewrite Hmiss. rewrite after_bind, ClearMarkers_completion.
  rewrite UpdatePanel_frames_selection. apply ClearMarkers_selection.
Qed.

End MethodFrames.

Section MouseMoveEffects.

Ltac run_MouseMove Hmesh Htemp :=
  unfold MouseMove, after, mbind, Method_bind, Viewer_GetMeshIntersectionUnderMouse, gets;
  rewrite Hmesh; cbn beta iota; rewrite Htemp; cbn;
  unfold selection, set_viewer, set_heap, set_tempMarker; cbn; rewrite ?Htemp; reflexivity.

Lemma MouseMove_miss_none c s :
  meshUnderMouse (viewer s) c = None -> tempMarker s = None ->
  MouseMove c s = (Normal tt, s).
Proof. intros Hmesh Htemp. run_MouseMove Hmesh Htemp. Qed.

Lemma MouseMove_miss_some c s t :
  meshUnderMouse (viewer s) c = None -> tempMarker s = Some t ->
  selection (after (MouseMove c) s) =
  (markers s, Some t, alter (fun m => Marker_Show m false) t (heap s)).
Proof. intros Hmesh Htemp. run_MouseMove Hmesh Htemp. Qed.

Lemma MouseMove_hit_some c s i t :
  meshUnderMouse (viewer s) c = Some i -> tempMarker s = Some t ->
  selection (after (MouseMove c) s) =
  (markers s, Some t,
   alter (fun m => Marker_Show m true) t
     (alter (fun m => Marker_UpdatePosition m i) t (heap s))).
Proof. intros Hmesh Htemp. run_MouseMove Hmesh Htemp. Qed.

Lemma MouseMove_hit_none c s i :
  meshUnderMouse (viewer s) c = Some i -> tempMarker s = None ->
  selection (after (MouseMove c) s) =
  (markers s, Some (length (heap s)),
   alter (fun m => Marker_Show m true) (length (heap s))
     (alter (fun m => Marker_UpdatePosition m i) (length (heap s))
        (heap s ++ [Marker_new i (boundingSphereRadius (viewer s) / 20)]))).
Proof. intros Hmesh Htemp. run_MouseMove Hmesh Htemp. Qed.

End MouseMoveEffects.

(** ** The invariant of reachable states *)

Lemma selection_inv s ms t h :
  selection s = (ms, t, h) -> markers s = ms /\ tempMarker s = t /\ heap s = h.
Proof. unfold selection. intros [= -> -> ->]. auto. Qed.

Lemma well_formed_same s s' :
  selection s' = selection s -> well_formed s -> well_formed s'.
Proof.
  intros (Hm & Ht & Hh)%selection_inv [Hc Hms Htm].
  split; rewrite ?Hm, ?Ht, ?Hh; assumption.
Qed.

Lemma well_formed_cleared s s' :
  selection s' = ([], None, heap s) -> well_formed s'.
Proof.
  intros (Hm & Ht & Hh)%selection_inv.
  split; rewrite ?Hm, ?Ht, ?Hh.
  - simpl. lia.
  - intros r Hr. inversion Hr.
  - intros t [=].
Qed.

Lemma well_formed_added s s' m :
  selection s' = (markers s ++ [length (heap s)], tempMarker s, heap s ++ [m]) ->
  length (markers s) < 3 -> well_formed s -> well_formed s'.
Proof.
  intros (Hm & Ht & Hh)%selection_inv Hlt [Hc Hms Htm].
  split; rewrite ?Hm, ?Ht, ?Hh; rewrite ?length_app; simpl.
  - lia.
  - intros r [Hr | ->%list_elem_of_singleton]%elem_of_app; [apply Hms in Hr|]; lia.
  - intros t Htemp. destruct (Htm t Htemp) as [Hlen Hnot]. split; [lia|].
    intros [Hr | ->%list_elem_of_singleton]%elem_of_app; [tauto | lia].
Qed.

Lemma well_formed_hover s s' t h :
  selection s' = (markers s, Some t, h) ->
  length (heap s) <= length h -> t < length h -> t ∉ markers s ->
  well_formed s -> well_formed s'.
Proof.
  intros (Hm & Ht & Hh)%selection_inv Hlen Hlt Hnot [Hc Hms Htm].
  split; rewrite ?Hm, ?Ht, ?Hh.
  - assumption.
  - intros r Hr. apply Hms in Hr. lia.
  - intros t' [= <-]. auto.
Qed.

Section Invariant.
Context `{Engine}.
Variable src : SourceFile.

Lemma Click_guard_false n :
  n <= 3 -> Click_guard src n = false -> n < 3.
Proof.
  unfold Click_guard. destruct src; intros Hle Hg.
  - apply Nat.eqb_neq in Hg. lia.
  - apply Nat.leb_gt in Hg. lia.
Qed.

Lemma SetActive_selection b s :
  selection (after (SetActive src b) s) = selection s \/
  selection (after (SetActive src b) s) = ([], None, heap s).
Proof.
  unfold SetActive. rewrite after_bind. cbn [completion after gets fst snd].
  destruct (Bool.eqb (isActive s) b); [left; reflexivity|].
  rewrite after_bind. cbn [completion after modify fst snd].
  set (s1 := set_isActive b s).
  change (selection s) with (selection s1). change (heap s) with (heap s1).
  rewrite after_bind.
  pose proof (Button_SetSelected_frames_selection b s1) as Hb.
  destruct (completion (Button_SetSelected b) s1); [|left; exact Hb].
  set (s2 := after (Button_SetSelected b) s1) in *.
  rewrite after_bind. cbn [completion after gets fst snd].
  destruct (isActive s2).
  - left. rewrite <- Hb.
    match goal with
    | |- selection (after ?m _) = _ => assert (Hf : frames selection m)
    end.
    { apply frames_bind; [frames_tac|intros ?].
      apply frames_bind; [apply UpdatePanel_frames_selection|intros ?].
      apply Resize_frames_selection. }
    apply Hf.
  - right. rewrite after_bind, ClearMarkers_completion.
    rewrite with_panel_frames_selection, ClearMarkers_selection.
    apply selection_inv in Hb as (_ & _ & ->). reflexivity.
Qed.

Lemma Click_well_formed c s : well_formed s -> well_formed (after (Click src c) s).
Proof.
  intros Hwf. destruct (meshUnderMouse (viewer s) c) as [i|] eqn:Hmesh.
  - destruct (Click_guard src (length (markers s))) eqn:Hguard.
    + unfold after. rewrite (Click_hit_rejected src c i s Hmesh Hguard). exact Hwf.
    + eapply well_formed_added; [apply (Click_hit_selection src c i s Hmesh Hguard)| |exact Hwf].
      apply Click_guard_false; [apply Hwf|exact Hguard].
  - eapply well_formed_cleared. apply (Click_miss_selection src c s Hmesh).
Qed.

Lemma MouseMove_well_formed c s : well_formed s -> well_formed (after (MouseMove c) s).
Proof.
  intros Hwf.
  destruct (meshUnderMouse (viewer s) c) as [i|] eqn:Hmesh;
    destruct (tempMarker s) as [t|] eqn:Htemp.
  - destruct (wf_temp s Hwf t Htemp) as [Hlt Hnot].
    eapply well_formed_hover;
      [apply (MouseMove_hit_some c s i t Hmesh Htemp)| | | |exact Hwf];
      rewrite ?length_alter; auto.
  - eapply well_formed_hover;
      [apply (MouseMove_hit_none c s i Hmesh Htemp)| | | |exact Hwf];
      rewrite ?length_alter, ?length_app; simpl; try lia.
    intros Hin. apply (wf_markers s Hwf) in Hin. lia.
  - destruct (wf_temp s Hwf t Htemp) as [Hlt Hnot].
    eapply well_formed_hover;
      [apply (MouseMove_miss_some c s t Hmesh Htemp)| | | |exact Hwf];
      rewrite ?length_alter; auto.
  - unfold after. rewrite (MouseMove_miss_none c s Hmesh Htemp). exact Hwf.
Qed.

Lemma perform_well_formed c s : well_formed s -> well_formed (perform src c s).
Proof.
  intros Hwf. destruct c; simpl.
  - eapply well_formed_same; [apply SetButton_frames_selection|exact Hwf].
  - eapply well_formed_same; [apply IsActive_frames_selection|exact Hwf].
  - destruct (SetActive_selection isActive0 s) as [Hs|Hs].
    + eapply well_formed_same; eauto.
    + eapply well_formed_cleared; eauto.
  - apply Click_well_formed, Hwf.
  - apply MouseMove_well_formed, Hwf.
  - eapply well_formed_same; [apply UpdatePanel_frames_selection|exact Hwf].
  - eapply well_formed_same; [apply Resize_frames_selection|exact Hwf].
  - eapply well_formed_cleared. apply ClearMarkers_selection.
Qed.

Lemma reachable_well_formed s : reachable src s -> well_formed s.
Proof.
  induction 1 as [v st d | c s _ IH | v st d s _ IH].
  - split; simpl; [lia | intros r Hr; inversion Hr | intros t [=]].
  - apply perform_well_formed, IH.
  - eapply well_formed_same; [|exact IH]. reflexivity.
Qed.

(** Every list of calls from the constructor ends in a reachable state. *)
Lemma run_reachable calls s : reachable src s -> reachable src (run src calls s).
Proof.
  revert s. induction calls as [|c calls IH]; intros s Hs; simpl; [exact Hs|].
  apply IH, reachable_call, Hs.
Qed.

End Invariant.

Section PanelEffects.
Context `{Engine}.
Variable src : SourceFile.

Lemma UpdatePanel_frames_viewer_few s :
  length (markers s) < 3 -> viewer (after (UpdatePanel src) s) = viewer s.
Proof.
  intros Hfew.
  assert (Hpanel : forall f, frames scene_and_selection (with_panel f)).
  { intros f. unfold with_panel. frames_tac. }
  assert (Hresize : frames scene_and_selection Resize).
  { unfold Resize. frames_tac. }
  enough (scene_and_selection (after (UpdatePanel src) s) = scene_and_selection s)
    as [= -> _] by reflexivity.
  unfold UpdatePanel. rewrite after_bind.
  pose proof (Hpanel (panel_set_children []) s) as H1.
  fold ClearDomElement_panel in H1.
  destruct (completion ClearDomElement_panel s); [|exact H1].
  rewrite <- H1. set (s1 := after ClearDomElement_panel s) in *.
  rewrite after_bind. cbn [completion after gets fst snd].
  rewrite after_bind.
  match goal with
  | |- context [completion ?m s1] =>
      assert (H2 : frames scene_and_selection m)
        by (frames_tac; (apply Hpanel || apply BlendBackgroundWithPageBackground_frames));
      specialize (H2 s1); destruct (completion m s1); [|exact H2];
      rewrite <- H2; set (s2 := after m s1) in *
  end.
  assert (Hlen : length (markers s2) < 3).
  { injection H2 as _ ->. injection H1 as _ ->. exact Hfew. }
  rewrite after_bind. cbn [completion after gets fst snd].
  rewrite after_bind.
  match goal with
  | |- context [completion ?m s2] =>
      assert (H3 : scene_and_selection (after m s2) = scene_and_selection s2)
  end.
  { destruct (length (markers s2)) as [|[|[|n]]]; cbn [Nat.eqb]; try apply Hpanel. lia. }
  match goal with
  | |- context [completion ?m s2] => destruct (completion m s2); [|exact H3]
  end.
  rewrite Hresize. exact H3.
Qed.

End PanelEffects.

(** ** The selection: claims about [Click] and [MouseMove] *)

Section Selection.
Context `{Engine}.
Variable src : SourceFile.

(** C2.  In every state reachable from the constructor by calls of the public
    methods, with the scene, settings and page changing freely in between,
    at most three markers are selected; and a click that hits the mesh while
    three markers are selected returns normally and changes nothing at all. *)
Theorem reachable_at_most_three_markers (s : State) :
  reachable src s ->
  length (markers s) <= 3 /\
  (forall c i,
     meshUnderMouse (viewer s) c = Some i -> length (markers s) = 3 ->
     Click src c s = (Normal tt, s)).
Proof.
  intros Hreach. split.
  - apply (wf_count s), reachable_well_formed with src, Hreach.
  - intros c i Hmesh Hthree. apply Click_hit_rejected with i; [exact Hmesh|].
    rewrite Hthree. destruct src; reflexivity.
Qed.

End Selection.

Lemma example_three_reachable src : reachable (H:=example_engine) src (example_three src).
Proof.
  unfold example_three, example_two, example_one, example_active, aim.
  repeat first [apply reachable_call | apply reachable_environment].
  apply reachable_constructor.
Qed.

Example example_three_markers src : markers (example_three src) = [0; 1; 2].
Proof.
  destruct src; lazy -[Rplus Rminus Rmult Rdiv Rinv Ropp IZR sqrt GetFaceWorldNormal];
    reflexivity.
Qed.

Lemma reachable_at_most_three_markers_witness :
  length (markers (example_three identificationtool_js)) <= 3 /\
  (forall c i,
     meshUnderMouse (viewer (example_three identificationtool_js)) c = Some i ->
     length (markers (example_three identificationtool_js)) = 3 ->
     Click (H:=example_engine) identificationtool_js c (example_three identificationtool_js)
     = (Normal tt, example_three identificationtool_js)).
Proof.
  apply (reachable_at_most_three_markers (H:=example_engine) identificationtool_js).
  apply example_three_reachable.
Defined.

Section ClickAndMouseMove.
Context `{Engine}.
Variable src : SourceFile.

(** C6.  A click that hits the mesh while fewer than three markers are
    selected appends exactly one marker to the list: a newly allocated object
    that stores the intersection returned by the ray-cast and sits at its
    point. *)
Theorem Click_hit_appends_marker (s : State) (c : MouseCoordinates) (i : THREE.Intersection) :
  meshUnderMouse (viewer s) c = Some i ->
  length (markers s) < 3 ->
  exists (ref : MarkerRef) (m : Marker),
    markers (after (Click src c) s) = markers s ++ [ref] /\
    heap s !! ref = None /\
    heap (after (Click src c) s) !! ref = Some m /\
    Marker_GetIntersection m = i /\
    position (Marker_GetObject m) = THREE.point i.
Proof.
  intros Hmesh Hfew.
  assert (Hguard : Click_guard src (length (markers s)) = false).
  { unfold Click_guard. destruct src; [apply Nat.eqb_neq | apply Nat.leb_gt]; lia. }
  destruct (selection_inv _ _ _ _ (Click_hit_selection src c i s Hmesh Hguard))
    as (Hm & _ & Hh).
  exists (length (heap s)), (Marker_new i (boundingSphereRadius (viewer s) / 20)).
  repeat split.
  - exact Hm.
  - apply lookup_ge_None_2. lia.
  - rewrite Hh. apply list_lookup_middle. reflexivity.
  - cbn. destruct (THREE.point i). reflexivity.
Qed.

(** C7.  A click that hits the mesh leaves the markers selected before it in
    place and untouched: the old list is a prefix of the new one, and every
    marker object that existed keeps its intersection and its position. *)
Theorem Click_hit_keeps_earlier_markers (s : State) (c : MouseCoordinates)
    (i : THREE.Intersection) :
  meshUnderMouse (viewer s) c = Some i ->
  markers s `prefix_of` markers (after (Click src c) s) /\
  (forall ref m, heap s !! ref = Some m -> heap (after (Click src c) s) !! ref = Some m).
Proof.
  intros Hmesh.
  destruct (Click_guard src (length (markers s))) eqn:Hguard.
  - unfold after. rewrite (Click_hit_rejected src c i s Hmesh Hguard). cbn [snd].
    split; [reflexivity | auto].
  - destruct (selection_inv _ _ _ _ (Click_hit_selection src c i s Hmesh Hguard))
      as (Hm & _ & Hh).
    rewrite Hm, Hh. split.
    + apply prefix_app_r. reflexivity.
    + intros ref m Href. apply lookup_app_l_Some. exact Href.
Qed.

(** C8.  A click that misses every mesh clears the selection whatever it
    was: no marker stays selected, the hover marker is null and the viewer
    holds no extra object. *)
Theorem Click_miss_clears_selection (s : State) (c : MouseCoordinates) :
  meshUnderMouse (viewer s) c = None ->
  markers (after (Click src c) s) = [] /\
  tempMarker (after (Click src c) s) = None /\
  extraObjects (viewer (after (Click src c) s)) = [].
Proof.
  intros Hmiss.
  destruct (selection_inv _ _ _ _ (Click_miss_selection src c s Hmiss)) as (Hm & Ht & _).
  repeat split; [exact Hm | exact Ht |].
  unfold Click. rewrite after_bind.
  cbn [completion after Viewer_GetMeshIntersectionUnderMouse gets fst snd].
  rewrite Hmiss, after_bind, ClearMarkers_completion.
  rewrite UpdatePanel_frames_viewer_few; [reflexivity | simpl; lia].
Qed.

(** C9.  [MouseMove] never changes the list of selected markers, hit or
    miss; and in a reachable state it does not touch the selected marker
    objects either: what it creates, moves, shows or hides is the hover
    marker alone. *)
Theorem MouseMove_keeps_selected_markers (s : State) (c : MouseCoordinates) :
  reachable src s ->
  markers (after (MouseMove c) s) = markers s /\
  (forall ref, ref ∈ markers s -> heap (after (MouseMove c) s) !! ref = heap s !! ref) /\
  (forall ref, tempMarker s <> Some ref -> ref < length (heap s) ->
     heap (after (MouseMove c) s) !! ref = heap s !! ref).
Proof.
  intros Hwf%reachable_well_formed.
  assert (Hothers : forall ref, ref ∈ markers s ->
            tempMarker s <> Some ref /\ ref < length (heap s)).
  { intros ref Hin. split; [|apply (wf_markers s Hwf ref Hin)].
    intros Ht. apply (wf_temp s Hwf) in Ht. tauto. }
  enough (markers (after (MouseMove c) s) = markers s /\
          (forall ref, tempMarker s <> Some ref -> ref < length (heap s) ->
             heap (after (MouseMove c) s) !! ref = heap s !! ref)) as [Hm Hh].
  { repeat split; [exact Hm | | exact Hh].
    intros ref Hin. destruct (Hothers ref Hin). auto. }
  destruct (meshUnderMouse (viewer s) c) as [i|] eqn:Hmesh;
    destruct (tempMarker s) as [t|] eqn:Htemp.
  - destruct (selection_inv _ _ _ _ (MouseMove_hit_some c s i t Hmesh Htemp))
      as (Hm & _ & Hh).
    split; [exact Hm|]. intros ref Hne Hlt. rewrite Hh.
    rewrite !list_lookup_alter_ne by congruence. reflexivity.
  - destruct (selection_inv _ _ _ _ (MouseMove_hit_none c s i Hmesh Htemp))
      as (Hm & _ & Hh).
    split; [exact Hm|]. intros ref Hne Hlt. rewrite Hh.
    rewrite !list_lookup_alter_ne by lia. apply lookup_app_l. exact Hlt.
  - destruct (selection_inv _ _ _ _ (MouseMove_miss_some c s t Hmesh Htemp))
      as (Hm & _ & Hh).
    split; [exact Hm|]. intros ref Hne Hlt. rewrite Hh.
    rewrite list_lookup_alter_ne by congruence. reflexivity.
  - unfold after. rewrite (MouseMove_miss_none c s Hmesh Htemp). auto.
Qed.

End ClickAndMouseMove.

(** C10.  On every state that holds at most three markers the two revisions'
    tests agree ([=== 3] and [>= 3] reject the same states), so a click adds
    a marker in the one exactly when it does in the other, and leaves the
    same selection and the same marker objects. *)
Theorem Click_guards_agree `{Engine} (s : State) (c : MouseCoordinates) :
  length (markers s) <= 3 ->
  Click_guard identificationtool_js (length (markers s)) =
  Click_guard part_000 (length (markers s)) /\
  selection (after (Click identificationtool_js c) s) =
  selection (after (Click part_000 c) s).
Proof.
  intros Hle.
  assert (Hg : Click_guard identificationtool_js (length (markers s)) =
               Click_guard part_000 (length (markers s))).
  { unfold Click_guard.
    destruct (Nat.eqb_spec (length (markers s)) 3), (Nat.leb_spec 3 (length (markers s)));
      (reflexivity || lia). }
  split; [exact Hg|].
  destruct (meshUnderMouse (viewer s) c) as [i|] eqn:Hmesh.
  - destruct (Click_guard part_000 (length (markers s))) eqn:Hguard.
    + unfold after.
      rewrite (Click_hit_rejected _ c i s Hmesh Hg), (Click_hit_rejected _ c i s Hmesh Hguard).
      reflexivity.
    + rewrite (Click_hit_selection _ c i s Hmesh Hg), (Click_hit_selection _ c i s Hmesh Hguard).
      reflexivity.
  - rewrite !Click_miss_selection by exact Hmesh. reflexivity.
Qed.

(** ** Geometry: the vectors and planes behind the measured values *)

Section Geometry.
Local Open Scope R_scope.

Lemma lengthSq_nonneg v : 0 <= THREE.lengthSq v.
Proof. unfold THREE.lengthSq. nra. Qed.

Lemma distanceToSquared_lengthSq a b :
  THREE.distanceToSquared a b = THREE.lengthSq (THREE.sub a b).
Proof. reflexivity. Qed.

(** Cauchy-Schwarz, from Lagrange's identity. *)
Lemma dot_squared_le a b :
  THREE.dot a b * THREE.dot a b <= THREE.lengthSq a * THREE.lengthSq b.
Proof.
  destruct a as [a1 a2 a3], b as [b1 b2 b3]. unfold THREE.dot, THREE.lengthSq. simpl.
  assert (Hid : (a1 * a1 + a2 * a2 + a3 * a3) * (b1 * b1 + b2 * b2 + b3 * b3)
                - (a1 * b1 + a2 * b2 + a3 * b3) * (a1 * b1 + a2 * b2 + a3 * b3)
                = (a1 * b2 - a2 * b1) * (a1 * b2 - a2 * b1)
                  + (a1 * b3 - a3 * b1) * (a1 * b3 - a3 * b1)
                  + (a2 * b3 - a3 * b2) * (a2 * b3 - a3 * b2)) by ring.
  pose proof (Rle_0_sqr (a1 * b2 - a2 * b1)) as H1.
  pose proof (Rle_0_sqr (a1 * b3 - a3 * b1)) as H2.
  pose proof (Rle_0_sqr (a2 * b3 - a3 * b2)) as H3.
  unfold Rsqr in *. lra.
Qed.

Lemma length_mult a b :
  THREE.length a * THREE.length b = sqrt (THREE.lengthSq a * THREE.lengthSq b).
Proof. unfold THREE.length. symmetry. apply sqrt_mult; apply lengthSq_nonneg. Qed.

(** For two non-zero vectors [angleTo] is the angle between them: it lies in
    [0, pi] and its cosine is the normalised dot product. *)
Lemma angleTo_is_the_angle a b :
  THREE.lengthSq a <> 0 -> THREE.lengthSq b <> 0 ->
  0 <= THREE.angleTo a b <= PI /\
  cos (THREE.angleTo a b) * (THREE.length a * THREE.length b) = THREE.dot a b.
Proof.
  intros Ha Hb. unfold THREE.angleTo.
  pose proof (lengthSq_nonneg a) as Ha0. pose proof (lengthSq_nonneg b) as Hb0.
  assert (Hprod : 0 < THREE.lengthSq a * THREE.lengthSq b) by nra.
  pose proof (sqrt_lt_R0 _ Hprod) as Hden.
  pose proof (sqrt_sqrt _ (Rlt_le _ _ Hprod)) as Hsq.
  set (den := sqrt (THREE.lengthSq a * THREE.lengthSq b)) in *.
  destruct (Req_dec_T den 0) as [Hz|_]; [lra|].
  split; [apply acos_bound|].
  pose proof (dot_squared_le a b) as Hcs.
  assert (Hbound : -1 <= THREE.dot a b / den <= 1).
  { assert (Habs : - den <= THREE.dot a b <= den) by (split; nra).
    split.
    - apply Rmult_le_reg_r with den; [exact Hden|].
      unfold Rdiv. rewrite Rmult_assoc, Rinv_l by lra. lra.
    - apply Rmult_le_reg_r with den; [exact Hden|].
      unfold Rdiv. rewrite Rmult_assoc, Rinv_l by lra. lra. }
  assert (Hclamp : THREE.clamp (THREE.dot a b / den) (-1) 1 = THREE.dot a b / den).
  { unfold THREE.clamp. rewrite Rmin_right by lra. apply Rmax_right. lra. }
  rewrite Hclamp, cos_acos by exact Hbound.
  rewrite length_mult. fold den. field. lra.
Qed.

Lemma angleTo_self v : THREE.lengthSq v <> 0 -> THREE.angleTo v v = 0.
Proof.
  intros Hv. unfold THREE.angleTo.
  pose proof (lengthSq_nonneg v) as Hv0.
  rewrite sqrt_square by exact Hv0.
  destruct (Req_dec_T (THREE.lengthSq v) 0) as [Hz|_]; [contradiction|].
  replace (THREE.dot v v / THREE.lengthSq v) with 1
    by (unfold THREE.dot, THREE.lengthSq in *; field; exact Hv).
  unfold THREE.clamp. rewrite Rmin_left by lra. rewrite Rmax_right by lra.
  apply acos_1.
Qed.

(** The plane of [setFromNormalAndCoplanarPoint n a] measures a point [b] by
    the component of [b - a] along [n]. *)
Lemma plane_distanceToPoint n a b :
  THREE.distanceToPoint (THREE.setFromNormalAndCoplanarPoint n a) b
  = THREE.dot n (THREE.sub b a).
Proof.
  unfold THREE.distanceToPoint, THREE.setFromNormalAndCoplanarPoint, THREE.dot, THREE.sub.
  simpl. ring.
Qed.

(** With a unit normal, that component is the distance from [b] to the plane:
    it is attained at the foot of the perpendicular, and no point of the plane
    is nearer. *)
Lemma unit_normal_plane_distance n a b :
  THREE.lengthSq n = 1 ->
  let d := THREE.dot n (THREE.sub b a) in
  let foot := THREE.sub b (THREE.multiplyScalar n d) in
  THREE.dot n (THREE.sub foot a) = 0 /\
  THREE.distanceTo b foot = Rabs d /\
  (forall q, THREE.dot n (THREE.sub q a) = 0 -> Rabs d <= THREE.distanceTo b q).
Proof.
  intros Hn d foot. repeat split.
  - subst foot d. destruct n as [n1 n2 n3], a as [a1 a2 a3], b as [b1 b2 b3].
    unfold THREE.dot, THREE.sub, THREE.multiplyScalar, THREE.lengthSq in *. simpl in *.
    set (k := n1 * (b1 - a1) + n2 * (b2 - a2) + n3 * (b3 - a3)).
    transitivity (k - (n1 * n1 + n2 * n2 + n3 * n3) * k); [subst k; ring|].
    rewrite Hn. ring.
  - unfold THREE.distanceTo. rewrite <- sqrt_Rsqr_abs. f_equal.
    subst foot d. destruct n as [n1 n2 n3], a as [a1 a2 a3], b as [b1 b2 b3].
    unfold THREE.distanceToSquared, THREE.dot, THREE.sub, THREE.multiplyScalar,
      THREE.lengthSq, Rsqr in *. simpl in *.
    set (k := n1 * (b1 - a1) + n2 * (b2 - a2) + n3 * (b3 - a3)).
    replace (b1 - (b1 - n1 * k)) with (n1 * k) by ring.
    replace (b2 - (b2 - n2 * k)) with (n2 * k) by ring.
    replace (b3 - (b3 - n3 * k)) with (n3 * k) by ring.
    transitivity ((n1 * n1 + n2 * n2 + n3 * n3) * (k * k)); [ring|].
    rewrite Hn. ring.
  - intros q Hq. unfold THREE.distanceTo. rewrite <- sqrt_Rsqr_abs.
    apply sqrt_le_1_alt.
    assert (Hd : d = THREE.dot n (THREE.sub b q)).
    { subst d. destruct n as [n1 n2 n3], a as [a1 a2 a3], b as [b1 b2 b3], q as [q1 q2 q3].
      unfold THREE.dot, THREE.sub in *. simpl in *. lra. }
    rewrite Hd, distanceToSquared_lengthSq. unfold Rsqr.
    pose proof (dot_squared_le n (THREE.sub b q)) as Hcs. rewrite Hn in Hcs. lra.
Qed.

End Geometry.

(** ** The measured values: claims about [CalculateMarkerValues] *)

Section MeasuredValues.
Context `{Engine}.
Local Open Scope R_scope.

Lemma IsEqualEps_true a b eps : IsEqualEps a b eps = true <-> Rabs (a - b) < eps.
Proof.
  unfold IsEqualEps. rewrite (Rabs_minus_sym a b).
  destruct (Rlt_dec (Rabs (b - a)) eps); split; intros; (assumption || congruence || auto).
Qed.

Lemma parallel_condition_true angle :
  parallel_condition angle = true <->
  Rabs (angle - 0) < BigEps \/ Rabs (angle - PI) < BigEps.
Proof.
  unfold parallel_condition. rewrite orb_true_iff, !IsEqualEps_true. reflexivity.
Qed.

(** The record [CalculateMarkerValues] returns, field by field. *)
Lemma CalculateMarkerValues_fields aMarker bMarker :
  let aIntersection := Marker_GetIntersection aMarker in
  let bIntersection := Marker_GetIntersection bMarker in
  let aNormal := GetFaceWorldNormal aIntersection in
  let bNormal := GetFaceWorldNormal bIntersection in
  let angle := THREE.angleTo aNormal bNormal in
  CalculateMarkerValues aMarker bMarker =
  mkMarkerValues
    (Some (THREE.distanceTo (THREE.point aIntersection) (THREE.point bIntersection)))
    (if parallel_condition angle then
       Some (Rabs (THREE.distanceToPoint
                     (THREE.setFromNormalAndCoplanarPoint aNormal (THREE.point aIntersection))
                     (THREE.point bIntersection)))
     else None)
    (Some angle).
Proof.
  intros. unfold CalculateMarkerValues, parallel_condition. cbn -[GetFaceWorldNormal].
  fold aIntersection bIntersection. fold aNormal bNormal. fold angle.
  destruct (IsEqualEps angle 0 BigEps || IsEqualEps angle PI BigEps); reflexivity.
Qed.


End MeasuredValues.

Section MeasuredDistances.
Context `{Engine}.
Local Open Scope R_scope.

(** The three values where the code gets them right.  [pointsDistance] is the
    Euclidean distance between the two intersection points; [facesAngle] is
    [angleTo] of the two world normals, the angle between them when neither
    is zero and the world matrices have axes of non-zero length; and under
    the parallel condition [parallelFacesDistance] is the absolute component
    of the step from the first point to the second along the first world
    normal, which is the distance from the second point to the plane through
    the first point when that normal has unit length. *)
Lemma CalculateMarkerValues_values (aMarker bMarker : Marker) :
  let pa := THREE.point (Marker_GetIntersection aMarker) in
  let pb := THREE.point (Marker_GetIntersection bMarker) in
  let na := GetFaceWorldNormal (Marker_GetIntersection aMarker) in
  let nb := GetFaceWorldNormal (Marker_GetIntersection bMarker) in
  let values := CalculateMarkerValues aMarker bMarker in
  pointsDistance values =
    Some (sqrt ((THREE.x pa - THREE.x pb) * (THREE.x pa - THREE.x pb)
                + (THREE.y pa - THREE.y pb) * (THREE.y pa - THREE.y pb)
                + (THREE.z pa - THREE.z pb) * (THREE.z pa - THREE.z pb))) /\
  facesAngle values = Some (THREE.angleTo na nb) /\
  (regular_marker aMarker -> regular_marker bMarker ->
   THREE.lengthSq na <> 0 -> THREE.lengthSq nb <> 0 ->
   0 <= THREE.angleTo na nb <= PI /\
   cos (THREE.angleTo na nb) * (THREE.length na * THREE.length nb) = THREE.dot na nb) /\
  (parallel_condition (THREE.angleTo na nb) = true ->
   parallelFacesDistance values = Some (Rabs (THREE.dot na (THREE.sub pb pa))) /\
   (THREE.lengthSq na = 1 ->
    (exists foot, THREE.dot na (THREE.sub foot pa) = 0 /\
                  THREE.distanceTo pb foot = Rabs (THREE.dot na (THREE.sub pb pa))) /\
    (forall q, THREE.dot na (THREE.sub q pa) = 0 ->
               Rabs (THREE.dot na (THREE.sub pb pa)) <= THREE.distanceTo pb q))).
Proof.
  intros pa pb na nb values. subst values.
  rewrite CalculateMarkerValues_fields.
  cbn [pointsDistance facesAngle parallelFacesDistance].
  fold pa pb na nb.
  split; [reflexivity|]. split; [reflexivity|]. split.
  - intros _ _ Hna Hnb. apply angleTo_is_the_angle; assumption.
  - intros Hparallel. rewrite Hparallel, plane_distanceToPoint.
    split; [reflexivity|]. intros Hunit.
    destruct (unit_normal_plane_distance na pa pb Hunit) as (Hfoot & Hdist & Hmin).
    split; [|exact Hmin].
    eexists. split; [exact Hfoot | exact Hdist].
Qed.

Lemma Rabs_small_example : Rabs (0 - 0) < 1 / 10000.
Proof. rewrite Rminus_diag, Rabs_R0. lra. Qed.

End MeasuredDistances.

(** ** World normals: claims about [GetFaceWorldNormal] *)

Section WorldNormal.
Local Open Scope R_scope.

(** [updateWorldMatrix] recomputes the cached matrix from the local matrices
    of the whole chain of ancestors; what the cache held before is ignored. *)
Lemma matrixWorld_updateWorldMatrix :
  forall o, THREE.matrixWorld (THREE.updateWorldMatrix o) = worldTransform o.
Proof.
  fix IH 1. intros [m w [p|]]; simpl.
  - rewrite IH. reflexivity.
  - reflexivity.
Qed.

Lemma sqrt_scaled_square k l : 0 < k -> 0 <= l -> sqrt (k * k * l) = k * sqrt l.
Proof.
  intros Hk Hl. rewrite sqrt_mult by nra. rewrite sqrt_square by lra. reflexivity.
Qed.

Lemma unit_column_rescaled c1 c2 c3 k :
  0 < k -> c1 * c1 + c2 * c2 + c3 * c3 = 1 ->
  1 / sqrt (c1 * k * (c1 * k) + c2 * k * (c2 * k) + c3 * k * (c3 * k)) = / k.
Proof.
  intros Hk Hunit.
  replace (c1 * k * (c1 * k) + c2 * k * (c2 * k) + c3 * k * (c3 * k))
    with (k * k * (c1 * c1 + c2 * c2 + c3 * c3)) by ring.
  rewrite Hunit, sqrt_scaled_square, sqrt_1 by lra. field. lra.
Qed.

(** From a world matrix composed of a translation, a turn and a positive
    scale, [extractRotation] gives back the turn alone. *)
Lemma extractRotation_of_composed rotation t v :
  unit_axes rotation -> 0 < THREE.x v -> 0 < THREE.y v -> 0 < THREE.z v ->
  THREE.extractRotation (THREE.scale (THREE.setPosition rotation t) v) = rotation.
Proof.
  intros (H0 & H1 & H2 & Hshape) Hx Hy Hz.
  rewrite Hshape at 2.
  unfold THREE.extractRotation, THREE.length, THREE.lengthSq, THREE.setFromMatrixColumn,
    THREE.scale, THREE.setPosition in *.
  cbn [THREE.x THREE.y THREE.z THREE.e0 THREE.e1 THREE.e2 THREE.e3 THREE.e4 THREE.e5
       THREE.e6 THREE.e7 THREE.e8 THREE.e9 THREE.e10 THREE.e11 THREE.e12 THREE.e13
       THREE.e14 THREE.e15] in *.
  rewrite (unit_column_rescaled _ _ _ _ Hx H0), (unit_column_rescaled _ _ _ _ Hy H1),
    (unit_column_rescaled _ _ _ _ Hz H2).
  f_equal; field; lra.
Qed.

(** A turn with perpendicular axes keeps lengths. *)
Lemma applyMatrix4_keeps_length rotation n :
  unit_axes rotation -> orthogonal_axes rotation ->
  THREE.lengthSq (THREE.applyMatrix4 n rotation) = THREE.lengthSq n.
Proof.
  intros (H0 & H1 & H2 & Hshape) (H01 & H02 & H12).
  rewrite Hshape.
  unfold THREE.applyMatrix4, THREE.lengthSq, THREE.dot, THREE.setFromMatrixColumn in *.
  cbn [THREE.x THREE.y THREE.z THREE.e0 THREE.e1 THREE.e2 THREE.e3 THREE.e4 THREE.e5
       THREE.e6 THREE.e7 THREE.e8 THREE.e9 THREE.e10 THREE.e11 THREE.e12 THREE.e13
       THREE.e14 THREE.e15] in *.
  destruct n as [n1 n2 n3]. cbn [THREE.x THREE.y THREE.z].
  set (a0 := THREE.e0 rotation) in *. set (a1 := THREE.e1 rotation) in *.
  set (a2 := THREE.e2 rotation) in *. set (a4 := THREE.e4 rotation) in *.
  set (a5 := THREE.e5 rotation) in *. set (a6 := THREE.e6 rotation) in *.
  set (a8 := THREE.e8 rotation) in *. set (a9 := THREE.e9 rotation) in *.
  set (a10 := THREE.e10 rotation) in *.
  replace (1 / (0 * n1 + 0 * n2 + 0 * n3 + 1)) with 1 by (field; lra).
  transitivity
    (n1 * n1 * (a0 * a0 + a1 * a1 + a2 * a2)
     + n2 * n2 * (a4 * a4 + a5 * a5 + a6 * a6)
     + n3 * n3 * (a8 * a8 + a9 * a9 + a10 * a10)
     + 2 * n1 * n2 * (a0 * a4 + a1 * a5 + a2 * a6)
     + 2 * n1 * n3 * (a0 * a8 + a1 * a9 + a2 * a10)
     + 2 * n2 * n3 * (a4 * a8 + a5 * a9 + a6 * a10)); [ring|].
  rewrite H0, H1, H2, H01, H02, H12. ring.
Qed.

Lemma GetFaceWorldNormal_worldTransform intersection :
  GetFaceWorldNormal intersection
  = THREE.applyMatrix4 (THREE.faceNormal (THREE.face intersection))
      (THREE.extractRotation (worldTransform (THREE.object intersection))).
Proof.
  unfold GetFaceWorldNormal. rewrite matrixWorld_updateWorldMatrix.
  unfold THREE.clone.
  destruct (THREE.faceNormal (THREE.face intersection)). reflexivity.
Qed.

Lemma GetFaceWorldNormal_of_composed intersection rotation t v :
  unit_axes rotation -> 0 < THREE.x v -> 0 < THREE.y v -> 0 < THREE.z v ->
  worldTransform (THREE.object intersection) = THREE.scale (THREE.setPosition rotation t) v ->
  GetFaceWorldNormal intersection
  = THREE.applyMatrix4 (THREE.faceNormal (THREE.face intersection)) rotation.
Proof.
  intros Hunit Hx Hy Hz Hworld.
  rewrite GetFaceWorldNormal_worldTransform, Hworld, extractRotation_of_composed by assumption.
  reflexivity.
Qed.

(** Where the world matrix is a turn (unit, perpendicular axes) combined
    with a translation and a positive scale along the turned axes, the world
    normal is the local normal transformed by the turn alone, whatever the
    translation and the scale, and it is as long as the local normal. *)
Lemma GetFaceWorldNormal_rotation_only (intersection : THREE.Intersection) rotation t v :
  let n := THREE.faceNormal (THREE.face intersection) in
  unit_axes rotation -> orthogonal_axes rotation ->
  0 < THREE.x v -> 0 < THREE.y v -> 0 < THREE.z v ->
  worldTransform (THREE.object intersection) = THREE.scale (THREE.setPosition rotation t) v ->
  GetFaceWorldNormal intersection = THREE.applyMatrix4 n rotation /\
  THREE.lengthSq (GetFaceWorldNormal intersection) = THREE.lengthSq n.
Proof.
  intros n Hunit Horth Hx Hy Hz Hworld.
  rewrite (GetFaceWorldNormal_of_composed intersection rotation t v) by assumption.
  split; [reflexivity|].
  apply applyMatrix4_keeps_length; assumption.
Qed.

End WorldNormal.

(** ** A turned mesh in a scaled group *)

Section ShearedMesh.
Local Open Scope R_scope.

Ltac entries :=
  cbn [THREE.x THREE.y THREE.z THREE.e0 THREE.e1 THREE.e2 THREE.e3 THREE.e4 THREE.e5
       THREE.e6 THREE.e7 THREE.e8 THREE.e9 THREE.e10 THREE.e11 THREE.e12 THREE.e13
       THREE.e14 THREE.e15].

Lemma example_turn_unit_axes : unit_axes example_turn.
Proof.
  unfold unit_axes, THREE.lengthSq, THREE.setFromMatrixColumn, example_turn. entries.
  split; [field|]. split; [field|]. split; [field | reflexivity].
Qed.

Lemma example_turn_orthogonal_axes : orthogonal_axes example_turn.
Proof.
  unfold orthogonal_axes, THREE.dot, THREE.setFromMatrixColumn, example_turn. entries.
  split; [field|]. split; field.
Qed.

(** The world matrix of the turned mesh is the group's matrix times the
    mesh's: the turned axes, stretched by the scale of the group. *)
Lemma turned_mesh_worldTransform v :
  worldTransform (turned_mesh (scaled_group v))
  = THREE.mkMatrix4 (THREE.x v * (8 / 17)) (THREE.y v * (15 / 17)) 0 0
                    (- (THREE.x v * (15 / 17))) (THREE.y v * (8 / 17)) 0 0
                    0 0 (THREE.z v) 0
                    0 0 0 1.
Proof.
  unfold turned_mesh, scaled_group, example_turn.
  cbn [worldTransform THREE.parent THREE.matrix].
  unfold THREE.multiplyMatrices, THREE.scale, THREE.identity. entries.
  f_equal; field.
Qed.

(** In an evenly scaled group the world matrix is the turn, scaled. *)
Lemma even_worldTransform :
  worldTransform even_object
  = THREE.scale (THREE.setPosition example_turn (THREE.mkVector3 0 0 0))
                (THREE.mkVector3 2 2 2).
Proof.
  unfold even_object. rewrite turned_mesh_worldTransform.
  unfold THREE.scale, THREE.setPosition, example_turn. entries.
  f_equal; field.
Qed.

Lemma even_world_normal py :
  GetFaceWorldNormal (even_hit py) = THREE.mkVector3 (- (36 / 85)) (77 / 85) 0.
Proof.
  rewrite (GetFaceWorldNormal_of_composed (even_hit py) example_turn
             (THREE.mkVector3 0 0 0) (THREE.mkVector3 2 2 2)).
  - unfold THREE.applyMatrix4, even_hit, example_turn.
    cbn [THREE.face THREE.faceNormal]. entries. f_equal; field.
  - apply example_turn_unit_axes.
  - entries. lra.
  - entries. lra.
  - entries. lra.
  - apply even_worldTransform.
Qed.

(** In the unevenly scaled group the axes come out oblique, and
    [extractRotation] leaves them so. *)
Lemma sheared_worldTransform :
  worldTransform sheared_object
  = THREE.mkMatrix4 (56 / 17) (390 / 17) 0 0  (- (105 / 17)) (208 / 17) 0 0
                    0 0 1 0  0 0 0 1.
Proof.
  unfold sheared_object. rewrite turned_mesh_worldTransform. entries.
  f_equal; field.
Qed.

Lemma sheared_extractRotation :
  THREE.extractRotation (worldTransform sheared_object)
  = THREE.mkMatrix4 (28 / 197) (195 / 197) 0 0  (- (105 / 233)) (208 / 233) 0 0
                    0 0 1 0  0 0 0 1.
Proof.
  rewrite sheared_worldTransform.
  unfold THREE.extractRotation, THREE.length, THREE.lengthSq, THREE.setFromMatrixColumn.
  entries.
  replace (56 / 17 * (56 / 17) + 390 / 17 * (390 / 17) + 0 * 0)
    with (394 / 17 * (394 / 17)) by field.
  replace (- (105 / 17) * - (105 / 17) + 208 / 17 * (208 / 17) + 0 * 0)
    with (233 / 17 * (233 / 17)) by field.
  replace (0 * 0 + 0 * 0 + 1 * 1) with (1 * 1) by ring.
  rewrite !sqrt_square by lra.
  f_equal; field.
Qed.

Lemma sheared_world_normal py :
  GetFaceWorldNormal (sheared_hit py)
  = THREE.mkVector3 (- (63168 / 229505)) (300209 / 229505) 0.
Proof.
  rewrite GetFaceWorldNormal_worldTransform.
  change (THREE.object (sheared_hit py)) with sheared_object.
  rewrite sheared_extractRotation.
  unfold THREE.applyMatrix4, sheared_hit. cbn [THREE.face THREE.faceNormal]. entries.
  f_equal; field.
Qed.

Lemma sheared_world_normal_long py :
  1 < THREE.lengthSq (GetFaceWorldNormal (sheared_hit py)).
Proof. rewrite sheared_world_normal. unfold THREE.lengthSq. entries. lra. Qed.

(** C5.  On a mesh turned inside an unevenly scaled group the world normal is
    not the local normal transformed by a rotation.  The world matrix, taken
    through the parent, has oblique axes; the face's unit normal
    (3/5, 4/5, 0), which the turn of the mesh (the only rotation in the
    chain) takes to (-36/85, 77/85, 0), comes out as
    (-63168/229505, 300209/229505, 0), longer than a unit vector, so that no
    rotation gives it; and the scale of the world transform is not discarded,
    as the same hit in an evenly scaled group gives (-36/85, 77/85, 0). *)
Theorem GetFaceWorldNormal_keeps_uneven_scale :
  let hit := sheared_hit 0 in
  let n := THREE.faceNormal (THREE.face hit) in
  THREE.matrixWorld (THREE.updateWorldMatrix (THREE.object hit))
    = THREE.mkMatrix4 (56 / 17) (390 / 17) 0 0  (- (105 / 17)) (208 / 17) 0 0
                      0 0 1 0  0 0 0 1 /\
  THREE.lengthSq n = 1 /\
  THREE.applyMatrix4 n example_turn = THREE.mkVector3 (- (36 / 85)) (77 / 85) 0 /\
  GetFaceWorldNormal hit = THREE.mkVector3 (- (63168 / 229505)) (300209 / 229505) 0 /\
  1 < THREE.lengthSq (GetFaceWorldNormal hit) /\
  (forall rotation, unit_axes rotation -> orthogonal_axes rotation ->
                    GetFaceWorldNormal hit <> THREE.applyMatrix4 n rotation) /\
  GetFaceWorldNormal (even_hit 0) = THREE.mkVector3 (- (36 / 85)) (77 / 85) 0.
Proof.
  intros hit n.
  assert (Hn : THREE.lengthSq n = 1).
  { subst n hit. unfold THREE.lengthSq, sheared_hit. cbn [THREE.face THREE.faceNormal].
    entries. field. }
  split; [rewrite matrixWorld_updateWorldMatrix; apply sheared_worldTransform|].
  split; [exact Hn|].
  split.
  { subst n hit. unfold THREE.applyMatrix4, sheared_hit, example_turn.
    cbn [THREE.face THREE.faceNormal]. entries. f_equal; field. }
  split; [apply sheared_world_normal|].
  split; [apply sheared_world_normal_long|].
  split; [|apply even_world_normal].
  intros rotation Hunit Horth Heq.
  pose proof (sheared_world_normal_long 0) as Hlong. fold hit in Hlong.
  rewrite Heq, applyMatrix4_keeps_length, Hn in Hlong by assumption.
  lra.
Qed.

(** C4.  Two markers on faces of the same unit normal of that mesh, one unit
    apart: the distance between the points is 1 and the angle between the
    faces 0, as they should be, but the parallel-faces distance comes out as
    300209/229505, more than 1, although the second point is within 1 of
    every plane through the first, whatever its normal.  The world normal
    handed to the plane is not a unit vector, and the plane is used as if it
    were. *)
Theorem parallelFacesDistance_exceeds_plane_distance :
  let aMarker := sheared_marker 0 in
  let bMarker := sheared_marker 1 in
  let pa := THREE.point (Marker_GetIntersection aMarker) in
  let pb := THREE.point (Marker_GetIntersection bMarker) in
  let values := CalculateMarkerValues (H:=example_engine) aMarker bMarker in
  pointsDistance values = Some 1 /\
  facesAngle values = Some 0 /\
  parallelFacesDistance values = Some (300209 / 229505) /\
  1 < 300209 / 229505 /\
  (forall n, THREE.lengthSq n = 1 -> Rabs (THREE.dot n (THREE.sub pb pa)) <= 1).
Proof.
  intros aMarker bMarker pa pb values.
  assert (Hdist : THREE.distanceTo pb pa = 1).
  { unfold THREE.distanceTo, THREE.distanceToSquared. subst pa pb. cbn.
    replace ((0 - 0) * (0 - 0) + (1 - 0) * (1 - 0) + (0 - 0) * (0 - 0)) with 1 by ring.
    apply sqrt_1. }
  assert (Hback : THREE.distanceTo pa pb = 1).
  { unfold THREE.distanceTo, THREE.distanceToSquared. subst pa pb. cbn.
    replace ((0 - 0) * (0 - 0) + (0 - 1) * (0 - 1) + (0 - 0) * (0 - 0)) with 1 by ring.
    apply sqrt_1. }
  assert (Hfields : values = mkMarkerValues (Some 1) (Some (300209 / 229505)) (Some 0)).
  { subst values. rewrite (CalculateMarkerValues_fields (H:=example_engine)).
    change (Marker_GetIntersection aMarker) with (sheared_hit 0).
    change (Marker_GetIntersection bMarker) with (sheared_hit 1).
    rewrite !sheared_world_normal.
    rewrite angleTo_self by (unfold THREE.lengthSq; entries; lra).
    assert (Hpar : parallel_condition (H:=example_engine) 0 = true).
    { apply parallel_condition_true. left. apply Rabs_small_example. }
    rewrite Hpar, plane_distanceToPoint.
    change (THREE.point (sheared_hit 0)) with pa.
    change (THREE.point (sheared_hit 1)) with pb.
    rewrite Hback.
    f_equal. f_equal.
    unfold THREE.dot, THREE.sub. subst pa pb. cbn.
    replace (- (63168 / 229505) * (0 - 0) + 300209 / 229505 * (1 - 0) + 0 * (0 - 0))
      with (300209 / 229505) by field.
    apply Rabs_pos_eq. lra. }
  rewrite Hfields. cbn [pointsDistance facesAngle parallelFacesDistance].
  split; [reflexivity|]. split; [reflexivity|]. split; [reflexivity|].
  split; [lra|].
  intros n Hunit.
  destruct (unit_normal_plane_distance n pa pb Hunit) as (_ & _ & Hmin).
  rewrite <- Hdist. apply Hmin.
  unfold THREE.dot, THREE.sub. cbn. ring.
Qed.

End ShearedMesh.

(** ** The panel: claims about [UpdatePanel] *)

Lemma run_completion {A} (m : Method A) s c s' : m s = (c, s') -> completion m s = c.
Proof. unfold completion. intros ->. reflexivity. Qed.

Lemma run_after {A} (m : Method A) s c s' : m s = (c, s') -> after m s = s'.
Proof. unfold after. intros ->. reflexivity. Qed.

Lemma with_panel_run f s p :
  panel s = Some p -> with_panel f s = (Normal tt, set_panel (Some (f p)) s).
Proof.
  intros Hp. unfold with_panel, mbind, Method_bind, gets, modify. rewrite Hp. reflexivity.
Qed.

Lemma with_panel_frames_contents f :
  (forall p, childNodes (f p) = childNodes p) -> frames contents (with_panel f).
Proof.
  intros Hf s. destruct (panel s) as [p|] eqn:Hp.
  - rewrite (run_after _ _ _ _ (with_panel_run f s p Hp)).
    unfold contents. cbn. rewrite Hp. cbn. rewrite Hf. reflexivity.
  - unfold after, with_panel, mbind, Method_bind, gets. rewrite Hp. reflexivity.
Qed.

Lemma contents_panel s nodes ms :
  contents s = (Some nodes, ms) ->
  exists p, panel s = Some p /\ childNodes p = nodes /\ markers s = ms.
Proof.
  unfold contents. destruct (panel s) as [p|]; cbn; intros [= <- <-]; eauto.
Qed.

Section PanelContents.
Context `{Engine}.
Variable src : SourceFile.

Lemma Resize_with_panel s p :
  panel s = Some p -> completion Resize s = Normal tt /\ contents (after Resize s) = contents s.
Proof.
  intros Hp. unfold Resize.
  rewrite completion_bind, after_bind. cbn [completion after gets fst snd].
  destruct (negb (isActive s)); [split; reflexivity|].
  rewrite completion_bind, after_bind. cbn [completion after gets fst snd].
  rewrite completion_bind, after_bind. cbn [completion after gets fst snd].
  rewrite Hp.
  rewrite completion_bind, after_bind. cbn [completion after gets fst snd].
  match goal with
  | |- context [with_panel ?f] =>
      rewrite (run_completion _ _ _ _ (with_panel_run f s p Hp));
      rewrite (run_after _ _ _ _ (with_panel_run f s p Hp))
  end.
  split; [reflexivity|]. unfold contents. cbn. rewrite Hp. reflexivity.
Qed.

(** C1, as the code has it.  Given a panel, [UpdatePanel] leaves in it a
    prompt chosen by the number of selected markers and nothing else: no
    value cell is added, and the content is ['Select 1st'], ['Select 5th'] or
    ['Select heel'] for zero, one or two markers and, for three or more,
    ['Check logs'] in identificationtool.js and nothing in the other
    revision (nothing at all when the page's background colour cannot be
    read and the call throws).  No distance or angle is computed or shown. *)
Theorem UpdatePanel_shows_prompt_only (s : State) (p : Panel) :
  panel s = Some p ->
  exists p',
    panel (after (UpdatePanel src) s) = Some p' /\
    displays_measurement p' = false /\
    childNodes p' =
      match completion (UpdatePanel src) s with
      | Throw _ => []
      | Normal _ =>
          match length (markers s) with
          | 0 => [TextNode "Select 1st"]
          | 1 => [TextNode "Select 5th"]
          | 2 => [TextNode "Select heel"]
          | _ => match src with
                 | identificationtool_js => [TextNode "Check logs"]
                 | part_000 => []
                 end
          end
      end.
Proof.
  intros Hp.
  enough (Hc : exists nodes,
             contents (after (UpdatePanel src) s) = (Some nodes, markers s) /\
             existsb is_measure_value nodes = false /\
             nodes = match completion (UpdatePanel src) s with
                     | Throw _ => []
                     | Normal _ =>
                         match length (markers s) with
                         | 0 => [TextNode "Select 1st"]
                         | 1 => [TextNode "Select 5th"]
                         | 2 => [TextNode "Select heel"]
                         | _ => match src with
                                | identificationtool_js => [TextNode "Check logs"]
                                | part_000 => []
                                end
                         end
                     end).
  { destruct Hc as (nodes & (p' & Hp' & Hn & _)%contents_panel & Hno & Heq).
    exists p'. unfold displays_measurement. rewrite Hn. auto. }
  unfold UpdatePanel. rewrite after_bind, completion_bind.
  pose proof (with_panel_run (panel_set_children []) s p Hp) as Hclear.
  fold ClearDomElement_panel in Hclear.
  rewrite (run_completion _ _ _ _ Hclear), (run_after _ _ _ _ Hclear).
  set (s1 := set_panel (Some (panel_set_children [] p)) s).
  assert (H1 : contents s1 = (Some [], markers s)) by reflexivity.
  rewrite after_bind, completion_bind. cbn [completion after gets fst snd].
  rewrite after_bind, completion_bind.
  match goal with
  | |- context [completion ?m s1] =>
      assert (H2 : frames contents m)
        by (frames_tac;
            (apply with_panel_frames_contents; reflexivity)
            || apply BlendBackgroundWithPageBackground_frames);
      specialize (H2 s1); rewrite H1 in H2;
      destruct (completion m s1); [|exists []; auto];
      set (s2 := after m s1) in *
  end.
  destruct (contents_panel _ _ _ H2) as (p2 & Hp2 & Hn2 & Hm2).
  rewrite after_bind, completion_bind. cbn [completion after gets fst snd].
  rewrite after_bind, completion_bind. rewrite Hm2.
  match goal with
  | |- context [completion ?m s2] =>
      assert (H3 : exists s3 p3, m s2 = (Normal tt, s3) /\ panel s3 = Some p3 /\
                contents s3 =
                (Some (match length (markers s) with
                       | 0 => [TextNode "Select 1st"]
                       | 1 => [TextNode "Select 5th"]
                       | 2 => [TextNode "Select heel"]
                       | _ => match src with
                              | identificationtool_js => [TextNode "Check logs"]
                              | part_000 => []
                              end
                       end), markers s))
  end.
  { destruct (length (markers s)) as [|[|[|n]]]; cbn [Nat.eqb].
    1-3: eexists _, _; split; [apply (with_panel_run _ s2 p2 Hp2)|];
         split; [reflexivity|]; unfold contents; cbn; rewrite Hm2; reflexivity.
    destruct src.
    - unfold mbind, Method_bind. rewrite (with_panel_run _ s2 p2 Hp2).
      cbn. eexists _, _. split; [reflexivity|]. split; [reflexivity|].
      unfold contents. cbn. rewrite Hm2. reflexivity.
    - eexists _, _. split; [reflexivity|]. split; [exact Hp2|].
      unfold contents. rewrite Hp2, Hm2. cbn. rewrite Hn2. reflexivity. }
  destruct H3 as (s3 & p3 & Hrun3 & Hp3 & Hc3).
  rewrite (run_completion _ _ _ _ Hrun3), (run_after _ _ _ _ Hrun3).
  destruct (Resize_with_panel s3 p3 Hp3) as [-> ->].
  eexists. split; [exact Hc3|]. split; [|reflexivity].
  destruct (length (markers s)) as [|[|[|n]]]; try destruct src; reflexivity.
Qed.

End PanelContents.

(** ** The theorems at work on the example page *)

Section Examples.
Local Open Scope R_scope.

Abbreviation web := identificationtool_js.

(** Running the tool on the example page: everything is computed except the
    arithmetic on real numbers. *)
Ltac run_example :=
  lazy -[Rplus Rminus Rmult Rdiv Rinv Ropp IZR sqrt GetFaceWorldNormal].

Lemma example_two_reachable src : reachable (H:=example_engine) src (example_two src).
Proof.
  unfold example_two, example_one, example_active, aim.
  repeat first [apply reachable_call | apply reachable_environment].
  apply reachable_constructor.
Qed.

Example example_two_markers src : markers (example_two src) = [0%nat; 1%nat].
Proof. destruct src; run_example; reflexivity. Qed.

Example String_match_digits_rgb :
  String_match_digits "rgb(255, 255, 255)" = Some ["255"; "255"; "255"]%string /\
  String_match_digits "transparent" = None /\
  parseInt10 "255" = 255%Z.
Proof. repeat split; reflexivity. Qed.

(** A click on a tool that was never switched on still selects the point,
    then throws when the panel is updated. *)
Example Click_without_panel :
  let s := constructor (example_viewer (Some (example_hit 0 0 0)))
                       example_settings example_document in
  completion (Click (H:=example_engine) web example_mouse) s
    = Throw (TypeError "this.panel is null") /\
  markers (after (Click (H:=example_engine) web example_mouse) s) = [0%nat].
Proof. split; run_example; reflexivity. Qed.

(** Outside the invariant the two tests differ: with four markers selected
    identificationtool.js adds a fifth, the other revision does not. *)
Example Click_guards_differ_beyond_three :
  length (markers (after (Click (H:=example_engine) web example_mouse) example_four)) = 5%nat /\
  length (markers (after (Click (H:=example_engine) part_000 example_mouse) example_four))
    = 4%nat.
Proof. split; run_example; reflexivity. Qed.

(** C1 fails as stated.  After two clicks, five units apart, the panel of
    identificationtool.js reads ['Select heel'] and holds no value cell,
    although the distance between the two selected points is defined. *)
Lemma UpdatePanel_displays_no_measurement :
  length (markers (example_two web)) = 2%nat /\
  (exists aMarker bMarker,
     heap (example_two web) !! 0%nat = Some aMarker /\
     heap (example_two web) !! 1%nat = Some bMarker /\
     pointsDistance (CalculateMarkerValues (H:=example_engine) aMarker bMarker) = Some 5) /\
  (exists p,
     panel (after (UpdatePanel (H:=example_engine) web) (example_two web)) = Some p /\
     childNodes p = [TextNode "Select heel"] /\
     displays_measurement p = false).
Proof.
  split; [run_example; reflexivity|]. split.
  - exists (Marker_new (example_hit 0 0 0) (20 / 20)), (Marker_new (example_hit 3 4 0) (20 / 20)).
    split; [run_example; reflexivity|]. split; [run_example; reflexivity|].
    rewrite (CalculateMarkerValues_fields (H:=example_engine)). cbn [pointsDistance].
    f_equal. unfold THREE.distanceTo, THREE.distanceToSquared. cbn.
    replace ((0 - 3) * (0 - 3) + (0 - 4) * (0 - 4) + (0 - 0) * (0 - 0)) with (5 * 5) by ring.
    apply sqrt_square. lra.
  - run_example. eexists. split; [reflexivity|]. split; reflexivity.
Qed.

Lemma UpdatePanel_shows_prompt_only_witness :
  exists p',
    panel (after (UpdatePanel (H:=example_engine) web) example_pair) = Some p' /\
    displays_measurement p' = false /\
    childNodes p' =
      match completion (UpdatePanel (H:=example_engine) web) example_pair with
      | Throw _ => []
      | Normal _ =>
          match length (markers example_pair) with
          | 0 => [TextNode "Select 1st"]
          | 1 => [TextNode "Select 5th"]
          | 2 => [TextNode "Select heel"]
          | _ => [TextNode "Check logs"]
          end
      end.
Proof.
  apply (UpdatePanel_shows_prompt_only (H:=example_engine) web example_pair
           (AddDiv_body "ov_identification_panel")).
  reflexivity.
Defined.

Lemma Click_hit_appends_marker_witness :
  exists (ref : MarkerRef) (m : Marker),
    markers (after (Click (H:=example_engine) web example_mouse)
               (aim (Some (example_hit 0 2 0)) (example_two web)))
    = markers (aim (Some (example_hit 0 2 0)) (example_two web)) ++ [ref] /\
    heap (aim (Some (example_hit 0 2 0)) (example_two web)) !! ref = None /\
    heap (after (Click (H:=example_engine) web example_mouse)
            (aim (Some (example_hit 0 2 0)) (example_two web))) !! ref = Some m /\
    Marker_GetIntersection m = example_hit 0 2 0 /\
    position (Marker_GetObject m) = THREE.point (example_hit 0 2 0).
Proof.
  apply (Click_hit_appends_marker (H:=example_engine) web
           (aim (Some (example_hit 0 2 0)) (example_two web)) example_mouse
           (example_hit 0 2 0)).
  - reflexivity.
  - apply Nat.ltb_lt. run_example. reflexivity.
Defined.

Lemma Click_hit_keeps_earlier_markers_witness :
  markers (aim (Some (example_hit 0 2 0)) (example_two web))
    `prefix_of` markers (after (Click (H:=example_engine) web example_mouse)
                           (aim (Some (example_hit 0 2 0)) (example_two web))) /\
  (forall ref m,
     heap (aim (Some (example_hit 0 2 0)) (example_two web)) !! ref = Some m ->
     heap (after (Click (H:=example_engine) web example_mouse)
             (aim (Some (example_hit 0 2 0)) (example_two web))) !! ref = Some m).
Proof.
  apply (Click_hit_keeps_earlier_markers (H:=example_engine) web
           (aim (Some (example_hit 0 2 0)) (example_two web)) example_mouse
           (example_hit 0 2 0)).
  reflexivity.
Defined.

Lemma Click_miss_clears_selection_witness :
  markers (after (Click (H:=example_engine) web example_mouse)
             (aim None (example_three web))) = [] /\
  tempMarker (after (Click (H:=example_engine) web example_mouse)
                (aim None (example_three web))) = None /\
  extraObjects (viewer (after (Click (H:=example_engine) web example_mouse)
                          (aim None (example_three web)))) = [].
Proof.
  apply (Click_miss_clears_selection (H:=example_engine) web
           (aim None (example_three web)) example_mouse).
  reflexivity.
Defined.

Lemma MouseMove_keeps_selected_markers_witness :
  markers (after (MouseMove example_mouse) (example_two web)) = markers (example_two web) /\
  (forall ref, ref ∈ markers (example_two web) ->
     heap (after (MouseMove example_mouse) (example_two web)) !! ref
     = heap (example_two web) !! ref) /\
  (forall ref, tempMarker (example_two web) <> Some ref ->
     (ref < length (heap (example_two web)))%nat ->
     heap (after (MouseMove example_mouse) (example_two web)) !! ref
     = heap (example_two web) !! ref).
Proof.
  apply (MouseMove_keeps_selected_markers (H:=example_engine) web).
  apply example_two_reachable.
Defined.

Lemma Click_guards_agree_witness :
  Click_guard web (length (markers (example_three web))) =
  Click_guard part_000 (length (markers (example_three web))) /\
  selection (after (Click (H:=example_engine) web example_mouse) (example_three web)) =
  selection (after (Click (H:=example_engine) part_000 example_mouse) (example_three web)).
Proof.
  apply (Click_guards_agree (H:=example_engine)).
  apply Nat.leb_le. run_example. reflexivity.
Defined.

Lemma identity_unit_axes : unit_axes THREE.identity.
Proof.
  unfold unit_axes, THREE.lengthSq, THREE.identity. cbn.
  repeat split; try ring.
Qed.

Lemma identity_orthogonal_axes : orthogonal_axes THREE.identity.
Proof. unfold orthogonal_axes, THREE.dot, THREE.identity. cbn. repeat split; ring. Qed.

Lemma example_world_normal px py pz :
  GetFaceWorldNormal (example_hit px py pz) = THREE.mkVector3 0 0 1.
Proof.
  rewrite (GetFaceWorldNormal_of_composed (example_hit px py pz)
             THREE.identity (THREE.mkVector3 0 0 0) (THREE.mkVector3 1 1 1));
    try apply identity_unit_axes; cbn; try lra.
  - unfold THREE.applyMatrix4, THREE.identity. cbn. f_equal; field.
  - unfold THREE.scale, THREE.setPosition, THREE.identity. cbn. f_equal; ring.
Qed.

Lemma GetFaceWorldNormal_rotation_only_witness :
  GetFaceWorldNormal (even_hit 0)
    = THREE.applyMatrix4 (THREE.faceNormal (THREE.face (even_hit 0))) example_turn /\
  THREE.lengthSq (GetFaceWorldNormal (even_hit 0))
    = THREE.lengthSq (THREE.faceNormal (THREE.face (even_hit 0))).
Proof.
  apply (GetFaceWorldNormal_rotation_only (even_hit 0) example_turn
           (THREE.mkVector3 0 0 0) (THREE.mkVector3 2 2 2)).
  - apply example_turn_unit_axes.
  - apply example_turn_orthogonal_axes.
  - cbn. lra.
  - cbn. lra.
  - cbn. lra.
  - apply even_worldTransform.
Defined.

Lemma CalculateMarkerValues_values_witness :
  parallelFacesDistance
    (CalculateMarkerValues (H:=example_engine) (example_marker 0 0 0) (example_marker 3 4 1))
  = Some 1 /\
  (forall q, THREE.dot (THREE.mkVector3 0 0 1) (THREE.sub q (THREE.mkVector3 0 0 0)) = 0 ->
             1 <= THREE.distanceTo (THREE.mkVector3 3 4 1) q).
Proof.
  destruct (CalculateMarkerValues_values (H:=example_engine)
              (example_marker 0 0 0) (example_marker 3 4 1))
    as (_ & _ & _ & Hparallel).
  change (Marker_GetIntersection (example_marker 0 0 0)) with (example_hit 0 0 0) in Hparallel.
  change (Marker_GetIntersection (example_marker 3 4 1)) with (example_hit 3 4 1) in Hparallel.
  rewrite !example_world_normal in Hparallel.
  assert (Hd : Rabs (THREE.dot (THREE.mkVector3 0 0 1)
                       (THREE.sub (THREE.point (example_hit 3 4 1))
                                  (THREE.point (example_hit 0 0 0)))) = 1).
  { unfold THREE.dot, THREE.sub. cbn.
    replace (0 * (3 - 0) + 0 * (4 - 0) + 1 * (1 - 0)) with 1 by ring.
    apply Rabs_pos_eq. lra. }
  rewrite Hd in Hparallel.
  destruct Hparallel as [Hvalue Hplane].
  { rewrite angleTo_self by (unfold THREE.lengthSq; cbn; lra).
    apply parallel_condition_true. left. apply Rabs_small_example. }
  split; [exact Hvalue|].
  apply Hplane. unfold THREE.lengthSq. cbn. ring.
Defined.

End Examples.

(* ================================================================== *)
(** * Further properties of the code *)

(** ** Switching the tool on and off *)

Lemma with_panel_frames_status f :
  (forall p, attached (f p) = attached p) -> frames tool_status (with_panel f).
Proof.
  intros Hf s. unfold after, with_panel, mbind, Method_bind, gets, modify, throw.
  destruct (panel s) as [p|] eqn:Hp; cbn [snd]; [|reflexivity].
  unfold tool_status. cbn. rewrite Hp. cbn. rewrite Hf. reflexivity.
Qed.

Section Activation.
Context `{Engine}.
Variable src : SourceFile.

Lemma Resize_frames_status : frames tool_status Resize.
Proof.
  unfold Resize. frames_tac. apply with_panel_frames_status. reflexivity.
Qed.

Lemma UpdatePanel_frames_status : frames tool_status (UpdatePanel src).
Proof.
  unfold UpdatePanel, ClearDomElement_panel, Viewer_AddExtraObject.
  frames_tac;
    first [ apply with_panel_frames_status; reflexivity
          | apply BlendBackgroundWithPageBackground_frames
          | apply Resize_frames_status ].
Qed.

(** X1.  Switching on a tool that has its button selects the button, marks
    the tool active and puts a new panel into the page, whatever panel it
    held before and even if filling the panel throws; the selection is not
    touched. *)
Theorem SetActive_true_opens_panel (s : State) (b : Button) :
  isActive s = false -> button s = Some b ->
  isActive (after (SetActive src true) s) = true /\
  button (after (SetActive src true) s) = Some (mkButton true) /\
  (exists p, panel (after (SetActive src true) s) = Some p /\ attached p = true) /\
  selection (after (SetActive src true) s) = selection s.
Proof.
  intros Hactive Hbutton.
  enough (Hs : tool_status (after (SetActive src true) s)
               = (true, Some (mkButton true), Some true, selection s)).
  { unfold tool_status in Hs.
    destruct (panel (after (SetActive src true) s)) as [p|]; cbn in Hs; [|discriminate].
    pose proof (f_equal (fun t => fst (fst (fst t))) Hs) as Ha.
    pose proof (f_equal (fun t => snd (fst (fst t))) Hs) as Hb.
    pose proof (f_equal (fun t => snd (fst t)) Hs) as Hatt.
    pose proof (f_equal snd Hs) as Hsel.
    cbn in Ha, Hb, Hatt, Hsel. injection Hatt as Hatt.
    repeat split; try assumption. exists p. auto. }
  unfold SetActive. rewrite after_bind. cbn [completion after gets fst snd].
  rewrite Hactive. cbn [Bool.eqb].
  rewrite after_bind. cbn [completion after modify fst snd].
  rewrite after_bind.
  assert (Hsel : Button_SetSelected true (set_isActive true s)
                 = (Normal tt, set_button (Some (mkButton true)) (set_isActive true s))).
  { unfold Button_SetSelected, mbind, Method_bind, gets, modify. cbn. rewrite Hbutton.
    reflexivity. }
  rewrite (run_completion _ _ _ _ Hsel), (run_after _ _ _ _ Hsel).
  rewrite after_bind. cbn [completion after gets fst snd set_button set_isActive isActive].
  rewrite after_bind. cbn [completion after modify fst snd].
  match goal with
  | |- tool_status (after ?m ?s0) = _ =>
      assert (Hf : frames tool_status m)
        by (apply frames_bind; [apply UpdatePanel_frames_status
                               | intros ?; apply Resize_frames_status]);
      rewrite (Hf s0)
  end.
  reflexivity.
Qed.

(** X2.  Switching off an active tool that has its button and its panel ends
    normally: the selection and the hover marker are dropped, the viewer's
    extra objects are cleared, the button is deselected, and the panel is
    taken out of the page, with its content kept. *)
Theorem SetActive_false_clears_and_removes (s : State) (b : Button) (p : Panel) :
  isActive s = true -> button s = Some b -> panel s = Some p ->
  completion (SetActive src false) s = Normal tt /\
  isActive (after (SetActive src false) s) = false /\
  markers (after (SetActive src false) s) = [] /\
  tempMarker (after (SetActive src false) s) = None /\
  extraObjects (viewer (after (SetActive src false) s)) = [] /\
  button (after (SetActive src false) s) = Some (mkButton false) /\
  panel (after (SetActive src false) s) = Some (panel_remove p) /\
  heap (after (SetActive src false) s) = heap s.
Proof.
  intros Hactive Hbutton Hpanel.
  unfold completion, after, SetActive, Button_SetSelected, ClearMarkers, Viewer_ClearExtra,
    with_panel, mbind, Method_bind, gets, modify.
  rewrite Hactive. cbn. rewrite Hbutton. cbn. rewrite Hpanel. cbn.
  repeat split.
Qed.

(** X3.  Switching a tool that has no button: the call throws a TypeError,
    but only after the active flag was changed; nothing else changes, and the
    same call repeated is then taken for done and returns at once. *)
Theorem SetActive_without_button (s : State) (b : bool) :
  button s = None -> isActive s <> b ->
  SetActive src b s = (Throw (TypeError "this.button is null"), set_isActive b s) /\
  SetActive src b (set_isActive b s) = (Normal tt, set_isActive b s).
Proof.
  intros Hbutton Hactive.
  unfold SetActive, Button_SetSelected, mbind, Method_bind, gets, modify, throw.
  assert (Hneq : Bool.eqb (isActive s) b = false).
  { destruct (isActive s), b; cbn; congruence. }
  rewrite Hneq. cbn. rewrite Hbutton. cbn.
  split; [reflexivity|]. rewrite Bool.eqb_reflx. reflexivity.
Qed.

(** X4.  [Resize] does nothing on an inactive tool; on an active tool with a
    panel it centres the panel over the canvas (the middle of the panel, as
    wide as the page laid it out, is the middle of the canvas) ten pixels
    below the canvas top, and changes nothing else. *)
Theorem Resize_centres_panel (s : State) :
  (isActive s = false -> Resize s = (Normal tt, s)) /\
  (forall p, isActive s = true -> panel s = Some p ->
     let canvas := canvasRect (viewer s) in
     let width := (rectRight (panelRect (document s) p)
                   - rectLeft (panelRect (document s) p))%R in
     exists left,
       Resize s = (Normal tt, set_panel (Some (panel_set_position left
                                                 (rectTop canvas + 10)%R p)) s) /\
       (left + width / 2 = (rectLeft canvas + rectRight canvas) / 2)%R).
Proof.
  split.
  - intros Hactive. unfold Resize, mbind, Method_bind, gets. rewrite Hactive. reflexivity.
  - intros p Hactive Hpanel canvas width.
    eexists. split.
    + unfold Resize, with_panel, mbind, Method_bind, gets, modify.
      rewrite Hactive. cbn. rewrite Hpanel. cbn. rewrite Hpanel. reflexivity.
    + subst canvas width. field.
Qed.

End Activation.

(** ** What a call can do to the markers *)

Section Transitions.
Context `{Engine}.
Variable src : SourceFile.

Lemma perform_transition c s : well_formed s -> transition s (perform src c s).
Proof.
  intros Hwf. destruct c as [b| |b|m|m| | |]; simpl.
  - apply transition_same, SetButton_frames_selection.
  - apply transition_same, IsActive_frames_selection.
  - destruct (SetActive_selection src b s) as [Hs|Hs];
      [apply transition_same | apply transition_cleared]; exact Hs.
  - destruct (meshUnderMouse (viewer s) m) as [i|] eqn:Hmesh.
    + destruct (Click_guard src (length (markers s))) eqn:Hguard.
      * apply transition_same. unfold after.
        rewrite (Click_hit_rejected src m i s Hmesh Hguard). reflexivity.
      * eapply transition_added; [|apply (Click_hit_selection src m i s Hmesh Hguard)].
        apply (Click_guard_false src); [apply Hwf | exact Hguard].
    + apply transition_cleared, Click_miss_selection, Hmesh.
  - destruct (meshUnderMouse (viewer s) m) as [i|] eqn:Hmesh;
      destruct (tempMarker s) as [t|] eqn:Htemp.
    + eapply transition_hover_moved; [exact Htemp|].
      apply (MouseMove_hit_some m s i t Hmesh Htemp).
    + eapply transition_hover_new; [exact Htemp|].
      apply (MouseMove_hit_none m s i Hmesh Htemp).
    + eapply transition_hover_hidden; [exact Htemp|].
      apply (MouseMove_miss_some m s t Hmesh Htemp).
    + apply transition_same. unfold after.
      rewrite (MouseMove_miss_none m s Hmesh Htemp). reflexivity.
  - apply transition_same, UpdatePanel_frames_selection.
  - apply transition_same, Resize_frames_selection.
  - apply transition_cleared, ClearMarkers_selection.
Qed.

End Transitions.

Lemma transition_keeps_selected s s' ref :
  well_formed s -> transition s s' -> ref ∈ markers s ->
  heap s' !! ref = heap s !! ref.
Proof.
  intros Hwf Htr Hin.
  pose proof (wf_markers s Hwf ref Hin) as Hlt.
  assert (Hnt : forall t, tempMarker s = Some t -> ref <> t).
  { intros t Ht ->. apply (wf_temp s Hwf) in Ht. tauto. }
  destruct Htr as [Hs|Hs|i r _ Hs|i r Ht Hs|i t Ht Hs|t Ht Hs];
    apply selection_inv in Hs as (_ & _ & ->); try reflexivity.
  - apply lookup_app_l, Hlt.
  - rewrite !list_lookup_alter_ne by lia. apply lookup_app_l, Hlt.
  - rewrite !list_lookup_alter_ne by (apply not_eq_sym, Hnt, Ht). reflexivity.
  - rewrite list_lookup_alter_ne by (apply not_eq_sym, Hnt, Ht). reflexivity.
Qed.







Section MarkerInvariants.
Context `{Engine}.
Variable src : SourceFile.


(** X5.  Whatever public method is called next, the markers selected before
    the call are not modified by it: each keeps its stored intersection, its
    position and its visibility, even when the call takes it out of the
    selection. *)
Theorem selected_markers_never_modified (s : State) (c : Call) (ref : MarkerRef) :
  reachable src s -> ref ∈ markers s ->
  heap (perform src c s) !! ref = heap s !! ref.
Proof.
  intros Hreach Hin.
  pose proof (reachable_well_formed src s Hreach) as Hwf.
  apply transition_keeps_selected; [exact Hwf | apply perform_transition, Hwf | exact Hin].
Qed.


End MarkerInvariants.

(** ** The hover marker *)

Section HoverMarker.
Context `{Engine}.
Variable src : SourceFile.

(** X7.  When the mouse moves over the mesh there is a hover marker
    afterwards: visible, storing the new intersection and placed at its
    point, and not among the selected markers.  An existing hover marker is
    moved (no object is created); only when there was none is one created. *)
Theorem MouseMove_hit_places_hover_marker (s : State) (c : MouseCoordinates)
    (i : THREE.Intersection) :
  reachable src s -> meshUnderMouse (viewer s) c = Some i ->
  exists t m,
    tempMarker (after (MouseMove c) s) = Some t /\
    heap (after (MouseMove c) s) !! t = Some m /\
    Marker_GetIntersection m = i /\
    position (Marker_GetObject m) = THREE.point i /\
    visible (Marker_GetObject m) = true /\
    (t ∉ markers (after (MouseMove c) s)) /\
    (forall t0, tempMarker s = Some t0 ->
       t = t0 /\ length (heap (after (MouseMove c) s)) = length (heap s)) /\
    (tempMarker s = None ->
       t = length (heap s) /\ length (heap (after (MouseMove c) s)) = S (length (heap s))).
Proof.
  intros Hwf%reachable_well_formed Hmesh.
  destruct (tempMarker s) as [t0|] eqn:Htemp.
  - destruct (selection_inv _ _ _ _ (MouseMove_hit_some c s i t0 Hmesh Htemp))
      as (Hm & Ht & Hh).
    destruct (wf_temp s Hwf t0 Htemp) as [Hlt Hnot].
    destruct (lookup_lt_is_Some_2 (heap s) t0 Hlt) as [m0 Hm0].
    exists t0, (Marker_Show (Marker_UpdatePosition m0 i) true).
    rewrite Ht, Hh, Hm, !list_lookup_alter_eq, Hm0, !length_alter. cbn.
    destruct (THREE.point i).
    split; [reflexivity|]. split; [reflexivity|]. split; [reflexivity|].
    split; [reflexivity|]. split; [reflexivity|]. split; [exact Hnot|].
    split; [intros t1 [= <-]; auto | discriminate].
  - destruct (selection_inv _ _ _ _ (MouseMove_hit_none c s i Hmesh Htemp))
      as (Hm & Ht & Hh).
    exists (length (heap s)),
      (Marker_Show (Marker_UpdatePosition
                      (Marker_new i (boundingSphereRadius (viewer s) / 20)) i) true).
    rewrite Ht, Hh, Hm, !list_lookup_alter_eq, !length_alter, length_app.
    rewrite list_lookup_middle by reflexivity. cbn.
    destruct (THREE.point i).
    split; [reflexivity|]. split; [reflexivity|]. split; [reflexivity|].
    split; [reflexivity|]. split; [reflexivity|]. split.
    { intros Hin. apply (wf_markers s Hwf) in Hin. lia. }
    split; [discriminate | intros _; split; [reflexivity | lia]].
Qed.

(** X8.  When the mouse moves off the mesh the hover marker is hidden, not
    dropped: the tool still holds it, at its last position and with its last
    intersection, only invisible.  No other marker object changes, and
    with no hover marker the call changes nothing at all. *)
Theorem MouseMove_miss_hides_hover_marker (s : State) (c : MouseCoordinates) :
  meshUnderMouse (viewer s) c = None ->
  markers (after (MouseMove c) s) = markers s /\
  tempMarker (after (MouseMove c) s) = tempMarker s /\
  (tempMarker s = None -> MouseMove c s = (Normal tt, s)) /\
  (forall t m, tempMarker s = Some t -> heap s !! t = Some m ->
     heap (after (MouseMove c) s) !! t = Some (Marker_Show m false) /\
     position (Marker_GetObject (Marker_Show m false)) = position (Marker_GetObject m) /\
     Marker_GetIntersection (Marker_Show m false) = Marker_GetIntersection m /\
     visible (Marker_GetObject (Marker_Show m false)) = false) /\
  (forall ref, tempMarker s <> Some ref ->
     heap (after (MouseMove c) s) !! ref = heap s !! ref).
Proof.
  intros Hmesh. destruct (tempMarker s) as [t0|] eqn:Htemp.
  - destruct (selection_inv _ _ _ _ (MouseMove_miss_some c s t0 Hmesh Htemp))
      as (Hm & Ht & Hh).
    rewrite Hm, Ht, Hh.
    split; [reflexivity|]. split; [reflexivity|]. split; [discriminate|]. split.
    + intros t1 m1 [= <-] Hlook. unfold MarkerRef in Hlook.
      rewrite list_lookup_alter_eq, Hlook.
      split; [reflexivity|]. split; [reflexivity|]. split; reflexivity.
    + intros ref Hne. apply list_lookup_alter_ne. congruence.
  - pose proof (MouseMove_miss_none c s Hmesh Htemp) as Hrun.
    unfold after. rewrite Hrun. cbn [snd].
    split; [reflexivity|]. split; [exact Htemp|]. split; [reflexivity|].
    split; [discriminate | reflexivity].
Qed.

End HoverMarker.

(** ** What a click adds to the scene *)

Section ClickScene.
Context `{Engine}.

Lemma AddMarker_second_run i s r0 m0 :
  markers s = [r0] -> heap s !! r0 = Some m0 ->
  viewer (after (AddMarker identificationtool_js i) s) =
    mkViewer (extraObjects (viewer s)
                ++ [MarkerObjectOf (length (heap s))]
                ++ [Line [THREE.point (Marker_GetIntersection m0); THREE.point i]
                         CreateMaterial])
             (renders (viewer s)) (meshUnderMouse (viewer s))
             (boundingSphereRadius (viewer s)) (canvasRect (viewer s)).
Proof.
  intros Hm Hh.
  unfold after, AddMarker, GenerateMarker, Marker_alloc, Viewer_AddExtraObject, Marker_deref,
    mbind, Method_bind, mret, Method_ret, gets, modify,
    set_viewer, set_heap, set_markers.
  cbn. rewrite Hm. cbn.
  rewrite (lookup_app_l_Some _ _ _ _ Hh). cbn.
  rewrite list_lookup_middle by reflexivity. cbn.
  rewrite <- app_assoc. reflexivity.
Qed.

Lemma AddMarker_plain_run i s :
  viewer (after (AddMarker part_000 i) s) =
    mkViewer (extraObjects (viewer s) ++ [MarkerObjectOf (length (heap s))])
             (renders (viewer s)) (meshUnderMouse (viewer s))
             (boundingSphereRadius (viewer s)) (canvasRect (viewer s)).
Proof. reflexivity. Qed.

Lemma Click_adding_viewer src c i s :
  meshUnderMouse (viewer s) c = Some i -> length (markers s) < 2 ->
  viewer (after (Click src c) s) = viewer (after (AddMarker src i) s).
Proof.
  intros Hmesh Hfew.
  assert (Hguard : Click_guard src (length (markers s)) = false).
  { unfold Click_guard. destruct src; [apply Nat.eqb_neq | apply Nat.leb_gt]; lia. }
  unfold Click. rewrite after_bind.
  cbn [completion after Viewer_GetMeshIntersectionUnderMouse gets fst snd].
  rewrite Hmesh. rewrite after_bind.
  cbn [completion after gets fst snd]. rewrite Hguard.
  rewrite after_bind.
  destruct (completion (AddMarker src i) s); [|reflexivity].
  apply UpdatePanel_frames_viewer_few.
  destruct (selection_inv _ _ _ _ (AddMarker_selection src i s)) as (-> & _ & _).
  rewrite length_app. simpl. lia.
Qed.

(** X9.  The click that selects the second marker adds to the scene, in
    identificationtool.js, the marker and then a line from the first selected
    point to the second; the other revision adds the marker only. *)
Theorem Click_second_marker_draws_line (s : State) (c : MouseCoordinates)
    (i : THREE.Intersection) (r0 : MarkerRef) (m0 : Marker) :
  meshUnderMouse (viewer s) c = Some i ->
  markers s = [r0] -> heap s !! r0 = Some m0 ->
  extraObjects (viewer (after (Click identificationtool_js c) s)) =
    extraObjects (viewer s)
      ++ [MarkerObjectOf (length (heap s));
          Line [THREE.point (Marker_GetIntersection m0); THREE.point i]
               (mkLineBasicMaterial 0x263238%N false)] /\
  extraObjects (viewer (after (Click part_000 c) s)) =
    extraObjects (viewer s) ++ [MarkerObjectOf (length (heap s))].
Proof.
  intros Hmesh Hm Hh.
  rewrite !Click_adding_viewer with (i := i) by (rewrite ?Hm; simpl; auto).
  rewrite (AddMarker_second_run i s r0 m0 Hm Hh), AddMarker_plain_run.
  split; reflexivity.
Qed.

End ClickScene.

(** ** Clicks on a tool without a panel *)

Section ClickWithoutPanel.
Context `{Engine}.
Variable src : SourceFile.

Lemma UpdatePanel_null_panel s :
  panel s = None -> UpdatePanel src s = (Throw (TypeError "this.panel is null"), s).
Proof.
  intros Hp. unfold UpdatePanel, ClearDomElement_panel, with_panel, mbind, Method_bind,
    gets, throw. rewrite Hp. reflexivity.
Qed.

Lemma AddMarker_frames_panel i : frames panel (AddMarker src i).
Proof.
  unfold AddMarker, GenerateMarker, Marker_alloc, Viewer_AddExtraObject.
  frames_tac; try apply Marker_deref_frames.
Qed.

Lemma AddMarker_completes i s :
  well_formed s -> completion (AddMarker src i) s = Normal tt.
Proof.
  intros Hwf.
  unfold completion, AddMarker, GenerateMarker, Marker_alloc, Viewer_AddExtraObject,
    Marker_deref, mbind, Method_bind, mret, Method_ret, gets, modify,
    set_viewer, set_heap, set_markers.
  destruct src; [|reflexivity]. cbn.
  destruct (markers s) as [|r0 [|r1 ms]] eqn:Hms; cbn; try reflexivity;
    [|rewrite length_app, Nat.add_comm; reflexivity].
  assert (Hlt : r0 < length (heap s)).
  { apply (wf_markers s Hwf). rewrite Hms. apply list_elem_of_here. }
  destruct (lookup_lt_is_Some_2 (heap s) r0 Hlt) as [m0 Hm0].
  rewrite (lookup_app_l_Some _ _ _ _ Hm0). cbn.
  rewrite list_lookup_middle by reflexivity. reflexivity.
Qed.

(** X10.  A click on a tool that has no panel (one never switched on) changes
    the selection first and throws afterwards: on the mesh, with room left,
    the marker is selected all the same; off the mesh the selection is
    cleared all the same. *)
Theorem Click_without_panel_throws_after_selecting (s : State) (c : MouseCoordinates) :
  reachable src s -> panel s = None ->
  (forall i, meshUnderMouse (viewer s) c = Some i -> length (markers s) < 3 ->
     completion (Click src c) s = Throw (TypeError "this.panel is null") /\
     markers (after (Click src c) s) = markers s ++ [length (heap s)]) /\
  (meshUnderMouse (viewer s) c = None ->
     completion (Click src c) s = Throw (TypeError "this.panel is null") /\
     markers (after (Click src c) s) = [] /\
     tempMarker (after (Click src c) s) = None).
Proof.
  intros Hwf%reachable_well_formed Hpanel. split.
  - intros i Hmesh Hfew.
    assert (Hguard : Click_guard src (length (markers s)) = false).
    { unfold Click_guard. destruct src; [apply Nat.eqb_neq | apply Nat.leb_gt]; lia. }
    destruct (selection_inv _ _ _ _ (Click_hit_selection src c i s Hmesh Hguard))
      as (Hm & _ & _).
    split; [|exact Hm].
    unfold Click. rewrite completion_bind.
    cbn [completion after Viewer_GetMeshIntersectionUnderMouse gets fst snd].
    rewrite Hmesh, completion_bind.
    cbn [completion after gets fst snd]. rewrite Hguard.
    rewrite completion_bind, (AddMarker_completes i s Hwf).
    apply run_completion with (s' := after (AddMarker src i) s).
    apply UpdatePanel_null_panel. rewrite AddMarker_frames_panel. exact Hpanel.
  - intros Hmesh.
    destruct (selection_inv _ _ _ _ (Click_miss_selection src c s Hmesh)) as (Hm & Ht & _).
    split; [|split; assumption].
    unfold Click. rewrite completion_bind.
    cbn [completion after Viewer_GetMeshIntersectionUnderMouse gets fst snd].
    rewrite Hmesh, completion_bind, ClearMarkers_completion.
    apply run_completion with (s' := after ClearMarkers s).
    apply UpdatePanel_null_panel. exact Hpanel.
Qed.

End ClickWithoutPanel.

(** ** More on the measured values *)

Section MeasuredSymmetry.
Context `{Engine}.
Local Open Scope R_scope.

Lemma distanceTo_sym a b : THREE.distanceTo a b = THREE.distanceTo b a.
Proof. unfold THREE.distanceTo, THREE.distanceToSquared. f_equal. ring. Qed.

Lemma angleTo_sym a b : THREE.angleTo a b = THREE.angleTo b a.
Proof.
  unfold THREE.angleTo.
  replace (THREE.lengthSq b * THREE.lengthSq a) with (THREE.lengthSq a * THREE.lengthSq b)
    by ring.
  replace (THREE.dot b a) with (THREE.dot a b) by (unfold THREE.dot; ring).
  reflexivity.
Qed.

(** X11.  For markers on objects whose world matrices have axes of non-zero
    length, the distance between the points and the angle between the faces
    do not depend on the order in which the two markers are given; and they
    are never negative, the angle being at most pi. *)
Theorem CalculateMarkerValues_symmetric (aMarker bMarker : Marker) :
  regular_marker aMarker -> regular_marker bMarker ->
  pointsDistance (CalculateMarkerValues aMarker bMarker)
    = pointsDistance (CalculateMarkerValues bMarker aMarker) /\
  facesAngle (CalculateMarkerValues aMarker bMarker)
    = facesAngle (CalculateMarkerValues bMarker aMarker) /\
  (exists d angle,
     pointsDistance (CalculateMarkerValues aMarker bMarker) = Some d /\
     facesAngle (CalculateMarkerValues aMarker bMarker) = Some angle /\
     0 <= d /\ 0 <= angle <= PI).
Proof.
  intros _ _.
  rewrite !CalculateMarkerValues_fields. cbn [pointsDistance facesAngle].
  split; [f_equal; apply distanceTo_sym|].
  split; [f_equal; apply angleTo_sym|].
  eexists _, _. split; [reflexivity|]. split; [reflexivity|].
  split; [apply sqrt_pos|].
  unfold THREE.angleTo.
  destruct (Req_dec_T _ 0); [|apply acos_bound].
  pose proof PI_RGT_0. lra.
Qed.

(** X12.  On objects whose world matrices have axes of non-zero length, a
    face whose normal is the zero vector (a degenerate triangle) is never
    found parallel to anything: the angle reported is pi / 2 and, for a
    tolerance of at most 1, no parallel-faces distance is set. *)
Theorem CalculateMarkerValues_degenerate_face (aMarker bMarker : Marker) :
  regular_marker aMarker -> regular_marker bMarker ->
  BigEps <= 1 ->
  THREE.faceNormal (THREE.face (Marker_GetIntersection aMarker)) = THREE.mkVector3 0 0 0 ->
  facesAngle (CalculateMarkerValues aMarker bMarker) = Some (PI / 2) /\
  parallelFacesDistance (CalculateMarkerValues aMarker bMarker) = None /\
  facesAngle (CalculateMarkerValues bMarker aMarker) = Some (PI / 2) /\
  parallelFacesDistance (CalculateMarkerValues bMarker aMarker) = None.
Proof.
  intros _ _ Heps Hzero.
  assert (Hn : THREE.lengthSq (GetFaceWorldNormal (Marker_GetIntersection aMarker)) = 0).
  { unfold GetFaceWorldNormal. rewrite Hzero.
    unfold THREE.applyMatrix4, THREE.clone, THREE.lengthSq. cbn. ring. }
  assert (Hangle : forall v,
            THREE.angleTo (GetFaceWorldNormal (Marker_GetIntersection aMarker)) v = PI / 2).
  { intros v. unfold THREE.angleTo. rewrite Hn, Rmult_0_l, sqrt_0.
    destruct (Req_dec_T 0 0); [reflexivity | contradiction]. }
  assert (Hnot : parallel_condition (PI / 2) = false).
  { apply not_true_is_false. rewrite parallel_condition_true.
    pose proof PI2_3_2 as Hlow. pose proof PI_RGT_0 as Hpos.
    intros [Hp|Hp].
    - rewrite Rminus_0_r, Rabs_pos_eq in Hp by lra. lra.
    - replace (PI / 2 - PI) with (- (PI / 2)) in Hp by field.
      rewrite Rabs_Ropp, Rabs_pos_eq in Hp by lra. lra. }
  rewrite !CalculateMarkerValues_fields. cbn [facesAngle parallelFacesDistance].
  rewrite (angleTo_sym _ (GetFaceWorldNormal (Marker_GetIntersection aMarker))).
  rewrite !Hangle, Hnot. repeat split.
Qed.

(** X13.  When the faces are found parallel and the first world normal has
    unit length, the parallel-faces distance never exceeds the distance
    between the two points. *)
Theorem parallelFacesDistance_at_most_pointsDistance (aMarker bMarker : Marker) :
  THREE.lengthSq (GetFaceWorldNormal (Marker_GetIntersection aMarker)) = 1 ->
  parallelFacesDistance (CalculateMarkerValues aMarker bMarker) <> None ->
  exists d p,
    pointsDistance (CalculateMarkerValues aMarker bMarker) = Some d /\
    parallelFacesDistance (CalculateMarkerValues aMarker bMarker) = Some p /\
    0 <= p <= d.
Proof.
  intros Hunit Hset. rewrite CalculateMarkerValues_fields in *.
  cbn [pointsDistance parallelFacesDistance] in *.
  destruct (parallel_condition _); [|contradiction].
  eexists _, _. split; [reflexivity|]. split; [reflexivity|].
  split; [apply Rabs_pos|].
  rewrite plane_distanceToPoint, distanceTo_sym.
  destruct (unit_normal_plane_distance _ (THREE.point (Marker_GetIntersection aMarker))
              (THREE.point (Marker_GetIntersection bMarker)) Hunit) as (_ & _ & Hmin).
  apply Hmin. unfold THREE.dot, THREE.sub. cbn. ring.
Qed.

(** X14.  A marker measured against itself, on an object whose world matrix
    has axes of non-zero length and on a face with a non-zero world normal,
    with a positive tolerance: distance zero, angle zero, and a
    parallel-faces distance of zero. *)
Theorem CalculateMarkerValues_same_marker (aMarker : Marker) :
  regular_marker aMarker ->
  0 < BigEps ->
  THREE.lengthSq (GetFaceWorldNormal (Marker_GetIntersection aMarker)) <> 0 ->
  CalculateMarkerValues aMarker aMarker = mkMarkerValues (Some 0) (Some 0) (Some 0).
Proof.
  intros _ Heps Hn. rewrite CalculateMarkerValues_fields.
  rewrite angleTo_self by exact Hn.
  assert (Hpar : parallel_condition 0 = true).
  { apply parallel_condition_true. left. rewrite Rminus_0_r, Rabs_R0. exact Heps. }
  rewrite Hpar, plane_distanceToPoint. f_equal.
  - f_equal. unfold THREE.distanceTo, THREE.distanceToSquared.
    rewrite !Rminus_diag, Rmult_0_l, !Rplus_0_l. apply sqrt_0.
  - f_equal. unfold THREE.dot, THREE.sub. cbn. rewrite !Rminus_diag, !Rmult_0_r, !Rplus_0_l.
    apply Rabs_R0.
Qed.

End MeasuredSymmetry.

(** ** When [UpdatePanel] throws *)

Lemma good_bind (P : State -> Prop) {A B} (m : Method A) (k : A -> Method B) s :
  good P m s -> (forall a, P (after m s) -> good P (k a) (after m s)) ->
  good P (m ≫= k) s.
Proof.
  intros [[a Ha] HP] Hk. unfold good. rewrite completion_bind, after_bind, Ha.
  apply Hk, HP.
Qed.

Lemma good_gets_bind (P : State -> Prop) {A B} (f : State -> A) (k : A -> Method B) s :
  good P (k (f s)) s -> good P (gets f ≫= k) s.
Proof. intros Hk. unfold good. rewrite completion_bind, after_bind. exact Hk. Qed.

Lemma good_ret (P : State -> Prop) {A} (a : A) s : P s -> good P (mret a) s.
Proof. intros HP. split; [exists a; reflexivity | exact HP]. Qed.

Lemma good_modify (P : State -> Prop) f s : P (f s) -> good P (modify f) s.
Proof. intros HP. split; [exists tt; reflexivity | exact HP]. Qed.

Lemma good_with_panel f s : panel_ready s -> good panel_ready (with_panel f) s.
Proof.
  intros [[p Hp] Hstyle]. unfold good.
  rewrite (run_completion _ _ _ _ (with_panel_run f s p Hp)),
          (run_after _ _ _ _ (with_panel_run f s p Hp)).
  split; [exists tt; reflexivity|]. split; [eexists; reflexivity | exact Hstyle].
Qed.

Ltac good_step :=
  match goal with
  | |- good _ (gets _ ≫= _) _ => apply good_gets_bind; cbn beta
  | |- good _ (_ ≫= _) _ => apply good_bind; [|intros ? ?]
  | |- good _ (with_panel _) _ => apply good_with_panel; assumption
  | |- good _ (mret _) _ => apply good_ret; assumption
  | |- good _ (modify _) _ => apply good_modify; assumption
  | |- good _ (if ?b then _ else _) _ => destruct b eqn:?
  | |- good _ (match ?x with _ => _ end) _ => destruct x eqn:?
  end.

Section PanelErrors.
Context `{Engine}.
Variable src : SourceFile.

Lemma UpdatePanel_good s : panel_ready s -> good panel_ready (UpdatePanel src) s.
Proof.
  intros Hready.
  unfold UpdatePanel, ClearDomElement_panel, Resize, BlendBackgroundWithPageBackground,
    Viewer_AddExtraObject.
  repeat good_step;
    match goal with
    | Hr : panel_ready ?s0 |- panel_ready (set_viewer _ ?s0) => exact Hr
    | Hr : panel_ready ?s0 |- panel_ready (set_console _ ?s0) => exact Hr
    | Hr : panel_ready ?s0, Hp : panel ?s0 = None |- _ =>
        destruct Hr as [[? Hsome] _]; congruence
    | Hr : panel_ready ?s0, He : backgroundIsEnvMap (settings ?s0) = false,
      Hd : String_match_digits _ = None |- _ =>
        destruct Hr as [_ [?|?]]; congruence
    end.
Qed.

(** X15.  [UpdatePanel] ends normally exactly when the tool has a panel and,
    unless the background is an environment map, the page's background
    colour holds a number; it throws a TypeError when there is no panel, and
    when the background colour of the page has no digits to read.  However
    it ends, the selection is as before. *)
Theorem UpdatePanel_throws_iff (s : State) :
  (completion (UpdatePanel src) s = Normal tt <-> panel_ready s) /\
  (panel s = None ->
   UpdatePanel src s = (Throw (TypeError "this.panel is null"), s)) /\
  (is_Some (panel s) -> backgroundIsEnvMap (settings s) = false ->
   String_match_digits (bodyBackgroundColor (document s)) = None ->
   completion (UpdatePanel src) s = Throw (TypeError "bgColors is null")) /\
  selection (after (UpdatePanel src) s) = selection s.
Proof.
  assert (Hnull : panel s = None ->
            UpdatePanel src s = (Throw (TypeError "this.panel is null"), s)).
  { intros Hp. unfold UpdatePanel, ClearDomElement_panel, with_panel, mbind, Method_bind,
      gets, throw. rewrite Hp. reflexivity. }
  assert (Hdigits : is_Some (panel s) -> backgroundIsEnvMap (settings s) = false ->
            String_match_digits (bodyBackgroundColor (document s)) = None ->
            completion (UpdatePanel src) s = Throw (TypeError "bgColors is null")).
  { intros [p Hp] Henv Hd.
    unfold UpdatePanel. rewrite completion_bind.
    pose proof (with_panel_run (panel_set_children []) s p Hp) as Hclear.
    fold ClearDomElement_panel in Hclear.
    rewrite (run_completion _ _ _ _ Hclear), (run_after _ _ _ _ Hclear).
    rewrite completion_bind. cbn [completion after gets fst snd set_panel settings].
    rewrite Henv, completion_bind, completion_bind.
    unfold BlendBackgroundWithPageBackground at 1.
    rewrite completion_bind. cbn [completion after gets fst snd set_panel document].
    rewrite Hd. reflexivity. }
  split; [|split; [exact Hnull | split; [exact Hdigits | apply UpdatePanel_frames_selection]]].
  split.
  - intros Hnormal. destruct (panel s) as [p|] eqn:Hp.
    + split; [eauto|].
      destruct (backgroundIsEnvMap (settings s)) eqn:Henv; [left; reflexivity|].
      right. intros Hd. rewrite Hdigits in Hnormal; [discriminate | eauto | reflexivity | exact Hd].
    + rewrite (run_completion _ _ _ _ (Hnull eq_refl)) in Hnormal. discriminate.
  - intros Hready. destruct (UpdatePanel_good s Hready) as [[[] Ha] _]. exact Ha.
Qed.

End PanelErrors.

(** ** Blending the background with the page *)

Section Blend.
Context `{Engine}.
Local Open Scope R_scope.

Lemma blend_between page colour alpha :
  0 <= alpha <= 1 ->
  Rmin page colour <= page * (1 - alpha) + colour * alpha <= Rmax page colour.
Proof.
  intros [H0 H1]. unfold Rmin, Rmax. destruct (Rle_dec page colour); split; nra.
Qed.

(** X16.  [BlendBackgroundWithPageBackground] never changes the state.  It
    throws when the page's background colour has no digits, returns the
    given colour without its alpha when the page's colour has fewer than
    three numbers, and otherwise mixes the first three numbers with the
    given colour: for an opacity between 0 and 1 every component lies
    between the page's and the colour's, opacity 1 gives the colour and
    opacity 0 the page. *)
Theorem BlendBackgroundWithPageBackground_mixes (s : State) (colour : RGBAColor.t) :
  let digits := String_match_digits (bodyBackgroundColor (document s)) in
  let alpha := ColorComponentToFloat (RGBAColor.a colour) in
  let page k := IZR (parseInt10 (default ""%string (default [] digits !! k))) in
  after (BlendBackgroundWithPageBackground colour) s = s /\
  (digits = None ->
   completion (BlendBackgroundWithPageBackground colour) s
   = Throw (TypeError "bgColors is null")) /\
  (forall bgColors, digits = Some bgColors -> (length bgColors < 3)%nat ->
   completion (BlendBackgroundWithPageBackground colour) s
   = Normal (RGBColor.mk (RGBAColor.r colour) (RGBAColor.g colour) (RGBAColor.b colour))) /\
  (forall bgColors, digits = Some bgColors -> (3 <= length bgColors)%nat ->
   exists out,
     completion (BlendBackgroundWithPageBackground colour) s = Normal out /\
     (0 <= alpha <= 1 ->
      Rmin (page 0%nat) (RGBAColor.r colour) <= RGBColor.r out
        <= Rmax (page 0%nat) (RGBAColor.r colour) /\
      Rmin (page 1%nat) (RGBAColor.g colour) <= RGBColor.g out
        <= Rmax (page 1%nat) (RGBAColor.g colour) /\
      Rmin (page 2%nat) (RGBAColor.b colour) <= RGBColor.b out
        <= Rmax (page 2%nat) (RGBAColor.b colour)) /\
     (alpha = 1 ->
      out = RGBColor.mk (RGBAColor.r colour) (RGBAColor.g colour) (RGBAColor.b colour)) /\
     (alpha = 0 -> out = RGBColor.mk (page 0%nat) (page 1%nat) (page 2%nat))).
Proof.
  intros digits alpha page.
  split; [apply BlendBackgroundWithPageBackground_frames with (proj := fun s => s)|].
  unfold completion, BlendBackgroundWithPageBackground, mbind, Method_bind, gets, throw,
    mret, Method_ret.
  fold digits. cbn [fst].
  split; [intros ->; reflexivity|]. split.
  - intros bg -> Hlen. apply Nat.ltb_lt in Hlen. rewrite Hlen. reflexivity.
  - intros bg Hd Hlen. apply Nat.ltb_ge in Hlen.
    subst page. rewrite Hd. cbn [default]. rewrite Hlen. fold alpha.
    eexists. split; [reflexivity|]. cbn [RGBColor.r RGBColor.g RGBColor.b].
    split; [intros Halpha; repeat split; apply blend_between; exact Halpha|].
    split; intros Ha; rewrite Ha; unfold Datatypes.id; f_equal;
      match goal with
      | |- context [IZR (parseInt10 ?x)] => generalize (IZR (parseInt10 x)); intros ?
      end; ring.
Qed.

End Blend.

(** ** The exporter *)

Section ExporterProperties.
Context {Model Format Extension File : Type}.
Implicit Types (exporters before rest : list (FormatExporter Model Format Extension File)).
Implicit Types (exporter : FormatExporter Model Format Extension File).

Lemma Exporter_Export_loop_first before exporter rest format extension :
  Forall (fun e => CanExport e format extension = false) before ->
  CanExport exporter format extension = true ->
  Exporter_Export_loop (before ++ exporter :: rest) format extension = Some exporter.
Proof.
  intros Hbefore Hcan. induction Hbefore as [|e before He _ IH]; simpl.
  - rewrite Hcan. reflexivity.
  - rewrite He. exact IH.
Qed.

Lemma Exporter_Export_loop_none exporters format extension :
  Exporter_Export_loop exporters format extension = None <->
  Forall (fun e => CanExport e format extension = false) exporters.
Proof.
  induction exporters as [|e exporters IH]; simpl.
  - split; [constructor | reflexivity].
  - destruct (CanExport e format extension) eqn:He.
    + split; [discriminate|]. intros Hall. inversion Hall; congruence.
    + rewrite IH. split; [constructor; assumption|]. intros Hall. inversion Hall; assumption.
Qed.

(** X17.  [Export] uses the first exporter of the list that can export the
    format and extension, whatever comes after it: its file lists are
    reported one by one, an empty list as an error and any other list as a
    success.  When no exporter can export, [onError] is called once and
    nothing else happens. *)
Theorem Exporter_Export_first_match exporters model format extension :
  (forall before exporter rest,
     exporters = before ++ exporter :: rest ->
     Forall (fun e => CanExport e format extension = false) before ->
     CanExport exporter format extension = true ->
     Exporter_Export exporters model format extension =
     map (fun files => match files with [] => onError | _ => onSuccess files end)
         (Export exporter model format)) /\
  (Forall (fun e => CanExport e format extension = false) exporters <->
   Exporter_Export_loop exporters format extension = None) /\
  (Forall (fun e => CanExport e format extension = false) exporters ->
   Exporter_Export exporters model format extension = [onError]).
Proof.
  split; [|split].
  - intros before exporter rest -> Hbefore Hcan. unfold Exporter_Export.
    rewrite (Exporter_Export_loop_first _ _ _ _ _ Hbefore Hcan).
    apply map_ext. intros [|f files]; reflexivity.
  - symmetry. apply Exporter_Export_loop_none.
  - intros Hall. unfold Exporter_Export.
    apply Exporter_Export_loop_none in Hall. rewrite Hall. reflexivity.
Qed.

(** X18.  [onSuccess] is never called with an empty list of files, and the
    files it is given are files some exporter of the list produced for this
    model and format with an exporter able to export it; an exporter that
    calls back once causes exactly one call, [onError] or [onSuccess]. *)
Theorem Exporter_Export_success_has_files exporters model format extension :
  (forall files,
     onSuccess files ∈ Exporter_Export exporters model format extension ->
     files <> [] /\
     exists exporter,
       exporter ∈ exporters /\ CanExport exporter format extension = true /\
       files ∈ Export exporter model format) /\
  (forall exporter,
     Exporter_Export_loop exporters format extension = Some exporter ->
     length (Exporter_Export exporters model format extension)
     = length (Export exporter model format)).
Proof.
  assert (Hloop : forall exporter,
            Exporter_Export_loop exporters format extension = Some exporter ->
            exporter ∈ exporters /\ CanExport exporter format extension = true).
  { induction exporters as [|e exporters IH]; simpl; [discriminate|].
    intros exporter. destruct (CanExport e format extension) eqn:He.
    - intros [= <-]. split; [apply list_elem_of_here | exact He].
    - intros Hl. destruct (IH exporter Hl). split; [apply list_elem_of_further|]; assumption. }
  split.
  - intros files. unfold Exporter_Export.
    destruct (Exporter_Export_loop exporters format extension) as [exporter|] eqn:Hl.
    + intros (fs & Heq & Hin)%list_elem_of_fmap.
      destruct fs as [|f fs]; cbn in Heq; [discriminate|].
      injection Heq as ->. split; [discriminate|].
      exists exporter. destruct (Hloop exporter eq_refl). auto.
    + intros Hin%list_elem_of_singleton. discriminate.
  - intros exporter Hl. unfold Exporter_Export. rewrite Hl. apply length_map.
Qed.

End ExporterProperties.

(** ** The third marker in identificationtool.js *)

Section Decorations.
Context `{Engine}.

Lemma with_panel_frames_scene f : frames scene_and_console (with_panel f).
Proof. unfold with_panel. frames_tac. Qed.

Lemma Resize_frames_scene : frames scene_and_console Resize.
Proof. unfold Resize. frames_tac. apply with_panel_frames_scene. Qed.

(** X19.  With three or more markers selected and a panel that can be
    filled, each [UpdatePanel] of identificationtool.js adds four objects to
    the scene (a yellow sphere of radius 1/2 and a red, a green and a blue
    line of length 2 from the origin along the axes) and logs the list of
    selected markers; the other revision adds nothing and logs nothing. *)
Theorem UpdatePanel_three_markers_decorates (s : State) :
  panel_ready s -> 3 <= length (markers s) ->
  extraObjects (viewer (after (UpdatePanel identificationtool_js) s)) =
    extraObjects (viewer s)
      ++ [SphereMesh (1 / 2) 0xffff00%N;
          Line [THREE.mkVector3 0 0 0; THREE.mkVector3 2 0 0]
               (mkLineBasicMaterial 0xff0000%N false);
          Line [THREE.mkVector3 0 0 0; THREE.mkVector3 0 2 0]
               (mkLineBasicMaterial 0x00ff00%N false);
          Line [THREE.mkVector3 0 0 0; THREE.mkVector3 0 0 2]
               (mkLineBasicMaterial 0x0000ff%N false)] /\
  console (after (UpdatePanel identificationtool_js) s) = console s ++ [markers s] /\
  viewer (after (UpdatePanel part_000) s) = viewer s /\
  console (after (UpdatePanel part_000) s) = console s.
Proof.
  intros Hready Hthree.
  assert (Hstep : forall src,
    exists s2 p2,
      scene_and_console s2 = scene_and_console s /\ panel s2 = Some p2 /\
        scene_and_console (after (UpdatePanel src) s) =
        scene_and_console
          (after (match src with
                  | identificationtool_js =>
                      with_panel (panel_set_innerHTML "Check logs");;
                      ms ← gets markers;
                      modify (set_console (fun c => c ++ [ms]));;
                      Viewer_AddExtraObject (SphereMesh (1 / 2) 0xffff00%N);;
                      Viewer_AddExtraObject
                        (CreateLineFromPoints [THREE.mkVector3 0 0 0; THREE.mkVector3 2 0 0]
                           (mkLineBasicMaterial 0xff0000%N false));;
                      Viewer_AddExtraObject
                        (CreateLineFromPoints [THREE.mkVector3 0 0 0; THREE.mkVector3 0 2 0]
                           (mkLineBasicMaterial 0x00ff00%N false));;
                      Viewer_AddExtraObject
                        (CreateLineFromPoints [THREE.mkVector3 0 0 0; THREE.mkVector3 0 0 2]
                           (mkLineBasicMaterial 0x0000ff%N false))
                  | part_000 => mret tt
                  end) s2)).
  { intros src.
    destruct (UpdatePanel_good src s Hready) as [[[] Hwhole] _].
    destruct Hready as [[p Hp] _].
    unfold UpdatePanel in Hwhole |- *.
    rewrite completion_bind in Hwhole.
    pose proof (with_panel_run (panel_set_children []) s p Hp) as Hclear.
    fold ClearDomElement_panel in Hclear.
    rewrite (run_completion _ _ _ _ Hclear), (run_after _ _ _ _ Hclear) in Hwhole.
    set (s1 := set_panel (Some (panel_set_children [] p)) s) in *.
    rewrite completion_bind in Hwhole. cbn [completion after gets fst snd] in Hwhole.
    rewrite completion_bind in Hwhole.
    match type of Hwhole with
    | context [completion ?m s1] =>
        assert (H2 : frames scene_and_console m)
          by (frames_tac;
              (apply with_panel_frames_scene
               || apply BlendBackgroundWithPageBackground_frames));
        assert (H2c : frames contents m)
          by (frames_tac;
              (apply with_panel_frames_contents; reflexivity)
              || apply BlendBackgroundWithPageBackground_frames);
        specialize (H2 s1); specialize (H2c s1);
        destruct (completion m s1) eqn:Hstyle; [|discriminate Hwhole];
        set (s2 := after m s1) in *
    end.
    destruct (contents_panel s2 [] (markers s) H2c) as (p2 & Hp2 & _ & Hm2).
    exists s2, p2. split; [exact H2|]. split; [exact Hp2|].
    rewrite after_bind, (run_completion _ _ _ _ Hclear), (run_after _ _ _ _ Hclear).
    fold s1. rewrite after_bind. cbn [completion after gets fst snd].
    rewrite after_bind, Hstyle. fold s2.
    rewrite after_bind. cbn [completion after gets fst snd].
    rewrite Hm2.
    destruct (length (markers s)) as [|[|[|n]]]; try lia. cbn [Nat.eqb].
    rewrite after_bind.
    match goal with
    | |- context [completion ?m s2] =>
        destruct (completion m s2); [apply Resize_frames_scene | reflexivity]
    end. }
  destruct (Hstep identificationtool_js) as (s2 & p2 & Hs2 & Hp2 & Hweb).
  destruct (Hstep part_000) as (s2' & p2' & Hs2' & _ & Hpart).
  assert (Hrun : scene_and_console (after (UpdatePanel identificationtool_js) s) =
                 (mkViewer (extraObjects (viewer s)
                    ++ [SphereMesh (1 / 2) 0xffff00%N;
                        Line [THREE.mkVector3 0 0 0; THREE.mkVector3 2 0 0]
                             (mkLineBasicMaterial 0xff0000%N false);
                        Line [THREE.mkVector3 0 0 0; THREE.mkVector3 0 2 0]
                             (mkLineBasicMaterial 0x00ff00%N false);
                        Line [THREE.mkVector3 0 0 0; THREE.mkVector3 0 0 2]
                             (mkLineBasicMaterial 0x0000ff%N false)])
                    (renders (viewer s)) (meshUnderMouse (viewer s))
                    (boundingSphereRadius (viewer s)) (canvasRect (viewer s)),
                  console s ++ [markers s], markers s)).
  { rewrite Hweb.
    unfold after, mbind, Method_bind. rewrite (with_panel_run _ s2 p2 Hp2).
    unfold scene_and_console in *. injection Hs2 as Hv Hc Hm.
    cbn. rewrite Hv, Hc, Hm, <- !app_assoc. reflexivity. }
  change (scene_and_console (after (UpdatePanel part_000) s) = scene_and_console s2') in Hpart.
  rewrite Hs2' in Hpart.
  unfold scene_and_console in Hrun, Hpart.
  injection Hrun as Hv Hc _. injection Hpart as Hv' Hc' _.
  rewrite Hv, Hc, Hv', Hc'. repeat split.
Qed.

End Decorations.

(** ** The selected markers are distinct objects *)

Lemma transition_NoDup s s' :
  well_formed s -> transition s s' -> NoDup (markers s) -> NoDup (markers s').
Proof.
  intros Hwf Htr Hnd.
  destruct Htr as [Hs|Hs|i r _ Hs|i r Ht Hs|i t Ht Hs|t Ht Hs];
    apply selection_inv in Hs as (-> & _ & _); try exact Hnd.
  - constructor.
  - apply NoDup_app. split; [exact Hnd|]. split; [|apply NoDup_singleton].
    intros x Hx ->%list_elem_of_singleton. apply (wf_markers s Hwf) in Hx. lia.
Qed.

Section Distinct.
Context `{Engine}.
Variable src : SourceFile.

(** X20.  In every reachable state the selected markers are pairwise
    distinct objects of the store, and the hover marker, when there is one,
    is another object of the store: a click never turns the hover marker
    into a selected one. *)
Theorem reachable_selection_distinct (s : State) :
  reachable src s ->
  NoDup (markers s) /\
  (forall ref, ref ∈ markers s -> is_Some (heap s !! ref)) /\
  (forall t, tempMarker s = Some t -> is_Some (heap s !! t) /\ t ∉ markers s).
Proof.
  intros Hreach. pose proof (reachable_well_formed src s Hreach) as Hwf.
  split; [|split].
  - induction Hreach as [v st d | c s Hs IH | v st d s _ IH].
    + constructor.
    + pose proof (reachable_well_formed src s Hs) as Hwfs.
      eapply transition_NoDup; [exact Hwfs | apply perform_transition, Hwfs | apply IH, Hwfs].
    + apply IH. eapply well_formed_same; [|exact Hwf]. reflexivity.
  - intros ref Hin. apply lookup_lt_is_Some_2, (wf_markers s Hwf), Hin.
  - intros t Ht. destruct (wf_temp s Hwf t Ht) as [Hlt Hnot].
    split; [apply lookup_lt_is_Some_2, Hlt | exact Hnot].
Qed.

End Distinct.

(** ** The colours of the panel *)

Section PanelColours.
Context `{Engine}.
Variable src : SourceFile.

Lemma with_panel_frames_colours f :
  (forall p, styleColor (f p) = styleColor p /\
             styleBackgroundColor (f p) = styleBackgroundColor p) ->
  frames panel_colours (with_panel f).
Proof.
  intros Hf s. unfold after, with_panel, mbind, Method_bind, gets, modify, throw.
  destruct (panel s) as [p|] eqn:Hp; cbn [snd]; [|reflexivity].
  unfold panel_colours. cbn. rewrite Hp. cbn. destruct (Hf p) as [-> ->]. reflexivity.
Qed.

Lemma Resize_frames_colours : frames panel_colours Resize.
Proof.
  unfold Resize. frames_tac. apply with_panel_frames_colours. intros ?. split; reflexivity.
Qed.

(** X21.  When [UpdatePanel] ends normally the panel is coloured for its
    background: white text on half-transparent black over an environment
    map; otherwise a transparent panel whose text is black when
    [IsDarkTextNeededForColor] says so of the background blended with the
    page, and white when it does not. *)
Theorem UpdatePanel_colours (s : State) :
  panel_ready s ->
  exists p',
    panel (after (UpdatePanel src) s) = Some p' /\
    (backgroundIsEnvMap (settings s) = true ->
     styleColor p' = "#ffffff"%string /\
     styleBackgroundColor p' = "rgba(0,0,0,0.5)"%string) /\
    (backgroundIsEnvMap (settings s) = false ->
     styleBackgroundColor p' = "transparent"%string /\
     exists blendedColor,
       completion (BlendBackgroundWithPageBackground (backgroundColor (settings s))) s
         = Normal blendedColor /\
       styleColor p' = if IsDarkTextNeededForColor blendedColor
                       then "#000000"%string else "#ffffff"%string).
Proof.
  intros Hready.
  enough (Hc : exists colours,
            panel_colours (after (UpdatePanel src) s) = Some colours /\
            (backgroundIsEnvMap (settings s) = true ->
             colours = ("#ffffff", "rgba(0,0,0,0.5)")%string) /\
            (backgroundIsEnvMap (settings s) = false ->
             exists blendedColor,
               completion (BlendBackgroundWithPageBackground (backgroundColor (settings s))) s
                 = Normal blendedColor /\
               colours = (if IsDarkTextNeededForColor blendedColor
                          then "#000000" else "#ffffff", "transparent")%string)).
  { destruct Hc as (colours & Hcol & Henv & Hplain). unfold panel_colours in Hcol.
    destruct (panel (after (UpdatePanel src) s)) as [p'|]; [|discriminate Hcol].
    cbn in Hcol. injection Hcol as <-. exists p'. split; [reflexivity|]. split.
    - intros He. specialize (Henv He). injection Henv as -> ->. split; reflexivity.
    - intros He. destruct (Hplain He) as (blended & Hb & Heq).
      injection Heq as -> ->. split; [reflexivity|]. exists blended. split; [exact Hb|reflexivity]. }
  destruct Hready as [[p Hp] Hstyle].
  unfold UpdatePanel. rewrite after_bind.
  pose proof (with_panel_run (panel_set_children []) s p Hp) as Hclear.
  fold ClearDomElement_panel in Hclear.
  rewrite (run_completion _ _ _ _ Hclear), (run_after _ _ _ _ Hclear).
  set (s1 := set_panel (Some (panel_set_children [] p)) s).
  rewrite after_bind. cbn [completion after gets fst snd].
  change (settings s1) with (settings s).
  destruct (backgroundIsEnvMap (settings s)) eqn:Henv.
  - eexists. split; [|split; [intros _; reflexivity | discriminate]].
    rewrite after_bind.
    assert (Hrun : (with_panel (panel_set_color "#ffffff");;
                    with_panel (panel_set_backgroundColor "rgba(0,0,0,0.5)")) s1
                   = (Normal tt,
                      set_panel (Some (panel_set_backgroundColor "rgba(0,0,0,0.5)"
                                         (panel_set_color "#ffffff"
                                            (panel_set_children [] p)))) s1)).
    { unfold mbind, Method_bind.
      rewrite (with_panel_run _ s1 (panel_set_children [] p) eq_refl).
      match goal with
      | |- context [with_panel ?f (set_panel (Some ?q) s1)] =>
          rewrite (with_panel_run f (set_panel (Some q) s1) q eq_refl)
      end.
      reflexivity. }
    rewrite (run_completion _ _ _ _ Hrun), (run_after _ _ _ _ Hrun).
    match goal with
    | |- panel_colours (after ?k ?s2) = _ =>
        assert (Hk : frames panel_colours k)
          by (unfold Viewer_AddExtraObject; frames_tac;
              first [ apply with_panel_frames_colours; intros ?; split; reflexivity
                    | apply Resize_frames_colours ]);
        rewrite (Hk s2)
    end.
    reflexivity.
  - destruct Hstyle as [He|Hd]; [discriminate|].
    destruct (String_match_digits (bodyBackgroundColor (document s))) as [bg|] eqn:Hdig;
      [|contradiction].
    assert (Hblend : exists blended,
              BlendBackgroundWithPageBackground (backgroundColor (settings s)) s1
              = (Normal blended, s1) /\
              completion (BlendBackgroundWithPageBackground (backgroundColor (settings s))) s
              = Normal blended).
    { unfold completion, BlendBackgroundWithPageBackground, mbind, Method_bind, gets, mret,
        Method_ret.
      change (document s1) with (document s). rewrite Hdig.
      destruct (length bg <? 3); eexists; split; reflexivity. }
    destruct Hblend as (blended & Hb1 & Hb).
    exists (if IsDarkTextNeededForColor blended then "#000000" else "#ffffff",
            "transparent")%string.
    split; [|split; [discriminate | intros _; exists blended; split; [exact Hb|reflexivity]]].
    rewrite after_bind.
    match goal with
    | |- context [completion ?m s1] =>
        assert (Hrun : m s1
                = (Normal tt,
                   set_panel (Some (panel_set_backgroundColor "transparent"
                                      (panel_set_color
                                         (if IsDarkTextNeededForColor blended
                                          then "#000000" else "#ffffff")
                                         (panel_set_children [] p)))) s1))
    end.
    { unfold mbind at 1, Method_bind at 1. rewrite Hb1.
      unfold mbind, Method_bind.
      destruct (IsDarkTextNeededForColor blended);
        rewrite (with_panel_run _ s1 (panel_set_children [] p) eq_refl);
        match goal with
        | |- context [with_panel ?f (set_panel (Some ?q) s1)] =>
            rewrite (with_panel_run f (set_panel (Some q) s1) q eq_refl)
        end; reflexivity. }
    rewrite (run_completion _ _ _ _ Hrun), (run_after _ _ _ _ Hrun).
    match goal with
    | |- panel_colours (after ?k ?s2) = _ =>
        assert (Hk : frames panel_colours k)
          by (unfold Viewer_AddExtraObject; frames_tac;
              first [ apply with_panel_frames_colours; intros ?; split; reflexivity
                    | apply Resize_frames_colours ]);
        rewrite (Hk s2)
    end.
    unfold panel_colours. cbn. destruct (IsDarkTextNeededForColor blended); reflexivity.
Qed.

End PanelColours.

(** ** The marker a click creates *)

Section MarkerShape.
Context `{Engine}.
Variable src : SourceFile.


End MarkerShape.

(** ** The further theorems at work on the example page *)

Section MoreExamples.
Local Open Scope R_scope.

Abbreviation web := identificationtool_js.

Ltac run_page :=
  lazy -[Rplus Rminus Rmult Rdiv Rinv Ropp IZR sqrt GetFaceWorldNormal].

Lemma example_start_reachable src : reachable (H:=example_engine) src example_start.
Proof. apply reachable_constructor. Qed.

Lemma SetActive_true_opens_panel_witness :
  isActive (after (SetActive (H:=example_engine) web true) example_idle) = true /\
  button (after (SetActive (H:=example_engine) web true) example_idle)
    = Some (mkButton true) /\
  (exists p, panel (after (SetActive (H:=example_engine) web true) example_idle) = Some p /\
             attached p = true) /\
  selection (after (SetActive (H:=example_engine) web true) example_idle)
    = selection example_idle.
Proof.
  apply (SetActive_true_opens_panel (H:=example_engine) web example_idle (mkButton false));
    reflexivity.
Defined.

Lemma SetActive_false_clears_and_removes_witness :
  completion (SetActive (H:=example_engine) web false) example_pair = Normal tt /\
  isActive (after (SetActive (H:=example_engine) web false) example_pair) = false /\
  markers (after (SetActive (H:=example_engine) web false) example_pair) = [] /\
  tempMarker (after (SetActive (H:=example_engine) web false) example_pair) = None /\
  extraObjects (viewer (after (SetActive (H:=example_engine) web false) example_pair)) = [] /\
  button (after (SetActive (H:=example_engine) web false) example_pair)
    = Some (mkButton false) /\
  panel (after (SetActive (H:=example_engine) web false) example_pair)
    = Some (panel_remove (AddDiv_body "ov_identification_panel")) /\
  heap (after (SetActive (H:=example_engine) web false) example_pair) = heap example_pair.
Proof.
  apply (SetActive_false_clears_and_removes (H:=example_engine) web example_pair
           (mkButton true) (AddDiv_body "ov_identification_panel")); reflexivity.
Defined.

Lemma SetActive_without_button_witness :
  SetActive (H:=example_engine) web true example_start
    = (Throw (TypeError "this.button is null"), set_isActive true example_start) /\
  SetActive (H:=example_engine) web true (set_isActive true example_start)
    = (Normal tt, set_isActive true example_start).
Proof.
  apply (SetActive_without_button (H:=example_engine) web example_start true).
  - reflexivity.
  - cbn. discriminate.
Defined.

Lemma Resize_centres_panel_witness :
  exists left,
    Resize example_pair
    = (Normal tt,
       set_panel (Some (panel_set_position left (0 + 10)
                          (AddDiv_body "ov_identification_panel"))) example_pair) /\
    left + (100 - 0) / 2 = (0 + 800) / 2.
Proof.
  destruct (Resize_centres_panel example_pair) as [_ Hactive].
  apply (Hactive (AddDiv_body "ov_identification_panel")); reflexivity.
Defined.

Lemma selected_markers_never_modified_witness :
  heap (perform (H:=example_engine) web (CallMouseMove example_mouse) (example_two web))
    !! 0%nat
  = heap (example_two web) !! 0%nat.
Proof.
  apply (selected_markers_never_modified (H:=example_engine) web).
  - apply example_two_reachable.
  - rewrite example_two_markers. apply list_elem_of_here.
Defined.


Lemma MouseMove_hit_places_hover_marker_witness :
  exists t m,
    tempMarker (after (MouseMove example_mouse) (example_two web)) = Some t /\
    heap (after (MouseMove example_mouse) (example_two web)) !! t = Some m /\
    Marker_GetIntersection m = example_hit 3 4 0 /\
    position (Marker_GetObject m) = THREE.point (example_hit 3 4 0) /\
    visible (Marker_GetObject m) = true /\
    (t ∉ markers (after (MouseMove example_mouse) (example_two web))) /\
    (forall t0, tempMarker (example_two web) = Some t0 ->
       t = t0 /\ length (heap (after (MouseMove example_mouse) (example_two web)))
                 = length (heap (example_two web))) /\
    (tempMarker (example_two web) = None ->
       t = length (heap (example_two web)) /\
       length (heap (after (MouseMove example_mouse) (example_two web)))
       = S (length (heap (example_two web)))).
Proof.
  apply (MouseMove_hit_places_hover_marker (H:=example_engine) web).
  - apply example_two_reachable.
  - run_page. reflexivity.
Defined.

Lemma MouseMove_miss_hides_hover_marker_witness :
  markers (after (MouseMove example_mouse) (aim None (example_two web)))
    = markers (aim None (example_two web)) /\
  tempMarker (after (MouseMove example_mouse) (aim None (example_two web)))
    = tempMarker (aim None (example_two web)) /\
  (tempMarker (aim None (example_two web)) = None ->
   MouseMove example_mouse (aim None (example_two web))
   = (Normal tt, aim None (example_two web))) /\
  (forall t m, tempMarker (aim None (example_two web)) = Some t ->
     heap (aim None (example_two web)) !! t = Some m ->
     heap (after (MouseMove example_mouse) (aim None (example_two web))) !! t
       = Some (Marker_Show m false) /\
     position (Marker_GetObject (Marker_Show m false)) = position (Marker_GetObject m) /\
     Marker_GetIntersection (Marker_Show m false) = Marker_GetIntersection m /\
     visible (Marker_GetObject (Marker_Show m false)) = false) /\
  (forall ref, tempMarker (aim None (example_two web)) <> Some ref ->
     heap (after (MouseMove example_mouse) (aim None (example_two web))) !! ref
     = heap (aim None (example_two web)) !! ref).
Proof.
  apply (MouseMove_miss_hides_hover_marker (aim None (example_two web)) example_mouse).
  reflexivity.
Defined.

Lemma Click_second_marker_draws_line_witness :
  extraObjects (viewer (after (Click (H:=example_engine) web example_mouse)
                          (aim (Some (example_hit 3 4 0)) (example_one web)))) =
    extraObjects (viewer (aim (Some (example_hit 3 4 0)) (example_one web)))
      ++ [MarkerObjectOf (length (heap (aim (Some (example_hit 3 4 0)) (example_one web))));
          Line [THREE.point (Marker_GetIntersection
                               (Marker_new (example_hit 0 0 0) (20 / 20)));
                THREE.point (example_hit 3 4 0)]
               (mkLineBasicMaterial 0x263238%N false)] /\
  extraObjects (viewer (after (Click (H:=example_engine) part_000 example_mouse)
                          (aim (Some (example_hit 3 4 0)) (example_one web)))) =
    extraObjects (viewer (aim (Some (example_hit 3 4 0)) (example_one web)))
      ++ [MarkerObjectOf (length (heap (aim (Some (example_hit 3 4 0)) (example_one web))))].
Proof.
  apply (Click_second_marker_draws_line (H:=example_engine)
           (aim (Some (example_hit 3 4 0)) (example_one web)) example_mouse
           (example_hit 3 4 0) 0%nat (Marker_new (example_hit 0 0 0) (20 / 20))).
  - reflexivity.
  - run_page. reflexivity.
  - run_page. reflexivity.
Defined.

Lemma Click_without_panel_throws_after_selecting_witness :
  (forall i, meshUnderMouse (viewer example_start) example_mouse = Some i ->
     (length (markers example_start) < 3)%nat ->
     completion (Click (H:=example_engine) web example_mouse) example_start
       = Throw (TypeError "this.panel is null") /\
     markers (after (Click (H:=example_engine) web example_mouse) example_start)
       = markers example_start ++ [length (heap example_start)]) /\
  (meshUnderMouse (viewer example_start) example_mouse = None ->
     completion (Click (H:=example_engine) web example_mouse) example_start
       = Throw (TypeError "this.panel is null") /\
     markers (after (Click (H:=example_engine) web example_mouse) example_start) = [] /\
     tempMarker (after (Click (H:=example_engine) web example_mouse) example_start) = None).
Proof.
  apply (Click_without_panel_throws_after_selecting (H:=example_engine) web
           example_start example_mouse).
  - apply example_start_reachable.
  - reflexivity.
Defined.

Lemma example_object_regular intersection :
  THREE.object intersection = example_object ->
  regular_marker (Marker_new intersection 1).
Proof.
  intros Hobject. unfold regular_marker.
  change (Marker_GetIntersection (Marker_new intersection 1)) with intersection.
  rewrite Hobject.
  unfold regular_axes, THREE.lengthSq, THREE.setFromMatrixColumn, example_object,
    THREE.identity.
  cbn. split; [lra|]. split; lra.
Qed.

Lemma degenerate_normal :
  THREE.faceNormal (THREE.face (Marker_GetIntersection degenerate_marker))
  = THREE.mkVector3 0 0 0.
Proof. reflexivity. Qed.

Lemma CalculateMarkerValues_degenerate_face_witness :
  facesAngle (CalculateMarkerValues (H:=example_engine) degenerate_marker
                (example_marker 0 0 0)) = Some (PI / 2) /\
  parallelFacesDistance (CalculateMarkerValues (H:=example_engine) degenerate_marker
                           (example_marker 0 0 0)) = None /\
  facesAngle (CalculateMarkerValues (H:=example_engine) (example_marker 0 0 0)
                degenerate_marker) = Some (PI / 2) /\
  parallelFacesDistance (CalculateMarkerValues (H:=example_engine) (example_marker 0 0 0)
                           degenerate_marker) = None.
Proof.
  apply (CalculateMarkerValues_degenerate_face (H:=example_engine)).
  - apply example_object_regular. reflexivity.
  - apply example_object_regular. reflexivity.
  - cbn. lra.
  - apply degenerate_normal.
Defined.

Lemma CalculateMarkerValues_symmetric_witness :
  pointsDistance (CalculateMarkerValues (H:=example_engine)
                    (example_marker 0 0 0) (example_marker 3 4 1))
    = pointsDistance (CalculateMarkerValues (H:=example_engine)
                        (example_marker 3 4 1) (example_marker 0 0 0)) /\
  facesAngle (CalculateMarkerValues (H:=example_engine)
                (example_marker 0 0 0) (example_marker 3 4 1))
    = facesAngle (CalculateMarkerValues (H:=example_engine)
                    (example_marker 3 4 1) (example_marker 0 0 0)) /\
  (exists d angle,
     pointsDistance (CalculateMarkerValues (H:=example_engine)
                       (example_marker 0 0 0) (example_marker 3 4 1)) = Some d /\
     facesAngle (CalculateMarkerValues (H:=example_engine)
                   (example_marker 0 0 0) (example_marker 3 4 1)) = Some angle /\
     0 <= d /\ 0 <= angle <= PI).
Proof.
  apply (CalculateMarkerValues_symmetric (H:=example_engine)).
  - apply example_object_regular. reflexivity.
  - apply example_object_regular. reflexivity.
Defined.

Lemma example_normal_unit px py pz :
  THREE.lengthSq (GetFaceWorldNormal (Marker_GetIntersection (example_marker px py pz))) = 1.
Proof.
  change (Marker_GetIntersection (example_marker px py pz)) with (example_hit px py pz).
  rewrite example_world_normal. unfold THREE.lengthSq. cbn. ring.
Qed.

Lemma example_faces_parallel :
  parallelFacesDistance
    (CalculateMarkerValues (H:=example_engine) (example_marker 0 0 0) (example_marker 3 4 1))
  <> None.
Proof.
  rewrite (CalculateMarkerValues_fields (H:=example_engine)). cbn [parallelFacesDistance].
  change (Marker_GetIntersection (example_marker 0 0 0)) with (example_hit 0 0 0).
  change (Marker_GetIntersection (example_marker 3 4 1)) with (example_hit 3 4 1).
  rewrite !example_world_normal.
  rewrite angleTo_self by (unfold THREE.lengthSq; cbn; lra).
  assert (Hpar : parallel_condition (H:=example_engine) 0 = true).
  { apply parallel_condition_true. left. apply Rabs_small_example. }
  rewrite Hpar. discriminate.
Qed.

Lemma parallelFacesDistance_at_most_pointsDistance_witness :
  exists d p,
    pointsDistance (CalculateMarkerValues (H:=example_engine)
                      (example_marker 0 0 0) (example_marker 3 4 1)) = Some d /\
    parallelFacesDistance (CalculateMarkerValues (H:=example_engine)
                             (example_marker 0 0 0) (example_marker 3 4 1)) = Some p /\
    0 <= p <= d.
Proof.
  apply (parallelFacesDistance_at_most_pointsDistance (H:=example_engine)).
  - apply example_normal_unit.
  - apply example_faces_parallel.
Defined.

Lemma CalculateMarkerValues_same_marker_witness :
  CalculateMarkerValues (H:=example_engine) (example_marker 3 4 1) (example_marker 3 4 1)
  = mkMarkerValues (Some 0) (Some 0) (Some 0).
Proof.
  apply (CalculateMarkerValues_same_marker (H:=example_engine)).
  - apply example_object_regular. reflexivity.
  - cbn. lra.
  - rewrite example_normal_unit. lra.
Defined.

Lemma UpdatePanel_three_markers_decorates_witness :
  extraObjects (viewer (after (UpdatePanel (H:=example_engine) web) example_four)) =
    extraObjects (viewer example_four)
      ++ [SphereMesh (1 / 2) 0xffff00%N;
          Line [THREE.mkVector3 0 0 0; THREE.mkVector3 2 0 0]
               (mkLineBasicMaterial 0xff0000%N false);
          Line [THREE.mkVector3 0 0 0; THREE.mkVector3 0 2 0]
               (mkLineBasicMaterial 0x00ff00%N false);
          Line [THREE.mkVector3 0 0 0; THREE.mkVector3 0 0 2]
               (mkLineBasicMaterial 0x0000ff%N false)] /\
  console (after (UpdatePanel (H:=example_engine) web) example_four)
    = console example_four ++ [markers example_four] /\
  viewer (after (UpdatePanel (H:=example_engine) part_000) example_four)
    = viewer example_four /\
  console (after (UpdatePanel (H:=example_engine) part_000) example_four)
    = console example_four.
Proof.
  apply (UpdatePanel_three_markers_decorates (H:=example_engine) example_four).
  - split; [eexists; reflexivity|]. right. discriminate.
  - cbn. lia.
Defined.

Lemma reachable_selection_distinct_witness :
  NoDup (markers (example_three web)) /\
  (forall ref, ref ∈ markers (example_three web) ->
     is_Some (heap (example_three web) !! ref)) /\
  (forall t, tempMarker (example_three web) = Some t ->
     is_Some (heap (example_three web) !! t) /\ t ∉ markers (example_three web)).
Proof.
  apply (reachable_selection_distinct (H:=example_engine) web).
  apply example_three_reachable.
Defined.

Lemma Exporter_Export_first_match_witness :
  Exporter_Export
    (Exporter_new example_exporter_off example_exporter_obj example_exporter_empty
                  example_exporter_off example_exporter_obj) tt 0%nat "obj"%string
  = [onSuccess ["model.obj"; "model.mtl"]%string] /\
  Exporter_Export [example_exporter_off; example_exporter_obj] tt 1%nat "stl"%string
  = [onError].
Proof.
  split.
  - apply (proj1 (Exporter_Export_first_match _ tt 0%nat "obj"%string)
             [example_exporter_off] example_exporter_obj
             [example_exporter_empty; example_exporter_off; example_exporter_obj]).
    + reflexivity.
    + repeat constructor.
    + reflexivity.
  - apply (proj2 (proj2 (Exporter_Export_first_match _ tt 1%nat "stl"%string))).
    repeat constructor.
Defined.

Lemma example_pair_ready : panel_ready example_pair.
Proof. split; [eexists; reflexivity|]. right. discriminate. Qed.

Lemma UpdatePanel_colours_witness :
  exists p',
    panel (after (UpdatePanel (H:=example_engine) web) example_pair) = Some p' /\
    (backgroundIsEnvMap (settings example_pair) = true ->
     styleColor p' = "#ffffff"%string /\
     styleBackgroundColor p' = "rgba(0,0,0,0.5)"%string) /\
    (backgroundIsEnvMap (settings example_pair) = false ->
     styleBackgroundColor p' = "transparent"%string /\
     exists blendedColor,
       completion (BlendBackgroundWithPageBackground (H:=example_engine)
                     (backgroundColor (settings example_pair))) example_pair
         = Normal blendedColor /\
       styleColor p' = if IsDarkTextNeededForColor (Engine:=example_engine) blendedColor
                       then "#000000"%string else "#ffffff"%string).
Proof.
  apply (UpdatePanel_colours (H:=example_engine) web example_pair).
  apply example_pair_ready.
Defined.


End MoreExamples.
